(** * Credential vault of the Alma order extension

    A shallow embedding of the credential-protection code of the extension
    (src/options.js and src/background.js): the base64url helpers, the
    persisted key-value record in [chrome.storage.local], the in-memory
    [CONFIG] of the service worker, and the handlers that set the password,
    save, unlock, auto-unlock, lock and clear the API key.

    JavaScript strings are modelled as [string] (sequences of 8-bit code
    units), [Uint8Array]s as [list byte], JavaScript numbers that hold counts
    as [Z].  The browser's WebCrypto and text codecs are an interface
    ([Platform]) with the laws the handlers rely on; the browser's [btoa] and
    [atob] are written out. *)

From Stdlib Require Import List String Ascii ZArith Lia ZifyNat Bool Arith.
From Stdlib.Strings Require Import Byte.
Import ListNotations.

Local Open Scope string_scope.
Local Open Scope list_scope.

(** ** Option as the exception monad: [None] is a thrown exception. *)

Definition bind {A B : Type} (m : option A) (k : A -> option B) : option B :=
  match m with
  | Some a => k a
  | None => None
  end.

Notation "'let?' x ':=' m 'in' k" := (bind m (fun x => k))
  (at level 10, x name, m at level 100, k at level 200).

(** ** Base64: the browser's [btoa] and [atob] *)

Module Base64.

(** Six bits, most significant first. *)
Definition sextet : Type := (bool * bool * bool * bool * bool * bool)%type.

Definition alphabet : list ascii :=
  list_ascii_of_string
    "ABCDEFGHIJKLMNOPQRSTUVWXYZabcdefghijklmnopqrstuvwxyz0123456789+/".

Definition sextet_index (s : sextet) : nat :=
  let '(b5, b4, b3, b2, b1, b0) := s in
  32 * Nat.b2n b5 + 16 * Nat.b2n b4 + 8 * Nat.b2n b3
  + 4 * Nat.b2n b2 + 2 * Nat.b2n b1 + Nat.b2n b0.

Definition index_sextet (n : nat) : sextet :=
  (Nat.testbit n 5, Nat.testbit n 4, Nat.testbit n 3,
   Nat.testbit n 2, Nat.testbit n 1, Nat.testbit n 0).

Definition encode_sextet (s : sextet) : ascii :=
  nth (sextet_index s) alphabet "A"%char.

Fixpoint index_of (c : ascii) (l : list ascii) : option nat :=
  match l with
  | [] => None
  | x :: r => if Ascii.eqb c x then Some 0 else option_map S (index_of c r)
  end.

Definition decode_char (c : ascii) : option sextet :=
  option_map index_sextet (index_of c alphabet).

(** One, two and three input bytes give two, three and four characters. *)
Definition encode1 (a : ascii) : list ascii :=
  let '(Ascii a0 a1 a2 a3 a4 a5 a6 a7) := a in
  [encode_sextet (a7, a6, a5, a4, a3, a2);
   encode_sextet (a1, a0, false, false, false, false)].

Definition encode2 (a b : ascii) : list ascii :=
  let '(Ascii a0 a1 a2 a3 a4 a5 a6 a7) := a in
  let '(Ascii b0 b1 b2 b3 b4 b5 b6 b7) := b in
  [encode_sextet (a7, a6, a5, a4, a3, a2);
   encode_sextet (a1, a0, b7, b6, b5, b4);
   encode_sextet (b3, b2, b1, b0, false, false)].

Definition encode3 (a b c : ascii) : list ascii :=
  let '(Ascii a0 a1 a2 a3 a4 a5 a6 a7) := a in
  let '(Ascii b0 b1 b2 b3 b4 b5 b6 b7) := b in
  let '(Ascii c0 c1 c2 c3 c4 c5 c6 c7) := c in
  [encode_sextet (a7, a6, a5, a4, a3, a2);
   encode_sextet (a1, a0, b7, b6, b5, b4);
   encode_sextet (b3, b2, b1, b0, c7, c6);
   encode_sextet (c5, c4, c3, c2, c1, c0)].

Fixpoint encode_body (l : list ascii) : list ascii :=
  match l with
  | [] => []
  | [a] => encode1 a
  | [a; b] => encode2 a b
  | a :: b :: c :: r => encode3 a b c ++ encode_body r
  end.

(** [while (s.length % 4) s += "="], also the padding rule of [btoa]. *)
Definition pad4 (l : list ascii) : list ascii :=
  match List.length l mod 4 with
  | 0 => l
  | 1 => l ++ ["="; "="; "="]%char
  | 2 => l ++ ["="; "="]%char
  | _ => l ++ ["="]%char
  end.

(** Bytes back from sextets; the bits left over at the end are discarded. *)
Definition decode2 (s1 s2 : sextet) : list ascii :=
  let '(a7, a6, a5, a4, a3, a2) := s1 in
  let '(a1, a0, _, _, _, _) := s2 in
  [Ascii a0 a1 a2 a3 a4 a5 a6 a7].

Definition decode3 (s1 s2 s3 : sextet) : list ascii :=
  let '(a7, a6, a5, a4, a3, a2) := s1 in
  let '(a1, a0, b7, b6, b5, b4) := s2 in
  let '(b3, b2, b1, b0, _, _) := s3 in
  [Ascii a0 a1 a2 a3 a4 a5 a6 a7; Ascii b0 b1 b2 b3 b4 b5 b6 b7].

Definition decode4 (s1 s2 s3 s4 : sextet) : list ascii :=
  let '(a7, a6, a5, a4, a3, a2) := s1 in
  let '(a1, a0, b7, b6, b5, b4) := s2 in
  let '(b3, b2, b1, b0, c7, c6) := s3 in
  let '(c5, c4, c3, c2, c1, c0) := s4 in
  [Ascii a0 a1 a2 a3 a4 a5 a6 a7; Ascii b0 b1 b2 b3 b4 b5 b6 b7;
   Ascii c0 c1 c2 c3 c4 c5 c6 c7].

(** Fails on a character outside the alphabet and on a length that is 1
    modulo 4. *)
Fixpoint decode_body (l : list ascii) : option (list ascii) :=
  match l with
  | [] => Some []
  | [_] => None
  | [c1; c2] =>
      let? s1 := decode_char c1 in
      let? s2 := decode_char c2 in
      Some (decode2 s1 s2)
  | [c1; c2; c3] =>
      let? s1 := decode_char c1 in
      let? s2 := decode_char c2 in
      let? s3 := decode_char c3 in
      Some (decode3 s1 s2 s3)
  | c1 :: c2 :: c3 :: c4 :: r =>
      let? s1 := decode_char c1 in
      let? s2 := decode_char c2 in
      let? s3 := decode_char c3 in
      let? s4 := decode_char c4 in
      let? bs := decode_body r in
      Some (decode4 s1 s2 s3 s4 ++ bs)
  end.

(** TAB, LF, FF, CR and SPACE. *)
Definition is_ascii_whitespace (c : ascii) : bool :=
  match nat_of_ascii c with
  | 9 | 10 | 12 | 13 | 32 => true
  | _ => false
  end.

Definition is_eq_sign (c : ascii) : bool := Ascii.eqb c "="%char.

(** When the length is a multiple of four, one or two trailing [=] go. *)
Definition strip_padding (l : list ascii) : list ascii :=
  if Nat.eqb (List.length l mod 4) 0 then
    match rev l with
    | c1 :: c2 :: r =>
        if is_eq_sign c1 then
          if is_eq_sign c2 then rev r else rev (c2 :: r)
        else l
    | _ => l
    end
  else l.

(** The forgiving-base64 decode that [atob] runs. *)
Definition forgiving_decode (data : list ascii) : option (list ascii) :=
  decode_body
    (strip_padding (filter (fun c => negb (is_ascii_whitespace c)) data)).

Definition btoa (s : string) : string :=
  string_of_list_ascii (pad4 (encode_body (list_ascii_of_string s))).

(** [None] is the [InvalidCharacterError] the browser throws. *)
Definition atob (s : string) : option string :=
  option_map string_of_list_ascii (forgiving_decode (list_ascii_of_string s)).

End Base64.

(** ** JavaScript string helpers *)

Definition on_chars (f : list ascii -> list ascii) (s : string) : string :=
  string_of_list_ascii (f (list_ascii_of_string s)).

Definition subst_char (from to c : ascii) : ascii :=
  if Ascii.eqb c from then to else c.

(** [s.replace(/from/g, to)] for a one-character pattern. *)
Definition replace_all (from to : ascii) : string -> string :=
  on_chars (map (subst_char from to)).

Fixpoint drop_while (p : ascii -> bool) (l : list ascii) : list ascii :=
  match l with
  | [] => []
  | c :: r => if p c then drop_while p r else l
  end.

(** [s.replace(/=+$/, "")]. *)
Definition strip_trailing_eq : string -> string :=
  on_chars (fun l => rev (drop_while Base64.is_eq_sign (rev l))).

(** White space and line terminators of ECMAScript among the 8-bit code
    units: TAB, LF, VT, FF, CR, SPACE and NBSP. *)
Definition is_js_whitespace (c : ascii) : bool :=
  match nat_of_ascii c with
  | 9 | 10 | 11 | 12 | 13 | 32 | 160 => true
  | _ => false
  end.

(** [String.prototype.trim]. *)
Definition trim : string -> string :=
  on_chars (fun l =>
    rev (drop_while is_js_whitespace (rev (drop_while is_js_whitespace l)))).

(** Truthiness of a value read from storage: absent ([undefined]), the empty
    string and [0] are falsy. *)
Definition nonempty (s : string) : bool := negb (String.eqb s "").

Definition truthy_string (v : option string) : bool :=
  match v with
  | Some s => nonempty s
  | None => false
  end.

Definition truthy_number (v : option Z) : bool :=
  match v with
  | Some n => negb (Z.eqb n 0)
  | None => false
  end.

(** ** The base64url helpers of the extension *)

(** [b64u] of options.js: [btoa] of the bytes as character codes, then the
    URL-safe alphabet without padding. *)
Definition b64u (bytes : list byte) : string :=
  strip_trailing_eq
    (replace_all "/" "_"
       (replace_all "+" "-" (Base64.btoa (string_of_list_byte bytes)))).

(** [u8ToB64u] of options.js and [toB64u] of background.js have the body of
    [b64u]. *)
Definition u8ToB64u (u8 : list byte) : string := b64u u8.
Definition toB64u (u8 : list byte) : string := b64u u8.

(** [ub64] of options.js and of background.js (where the argument first goes
    through [String(s || "")]); [None] when [atob] throws. *)
Definition ub64 (s : string) : option (list byte) :=
  let s := replace_all "_" "/" (replace_all "-" "+" s) in
  let s := on_chars Base64.pad4 s in
  let? bin := Base64.atob s in
  Some (list_byte_of_string bin).

(** ** The helpers on lists of characters

    [encode_url] and [decode_url] are [b64u] and [ub64] without the
    conversions between strings, bytes and character lists. *)

Module Base64Url.
Import Base64.

Definition encode_url (l : list ascii) : list ascii :=
  rev (drop_while is_eq_sign
         (rev (map (subst_char "/" "_")
                 (map (subst_char "+" "-") (pad4 (encode_body l)))))).

Definition decode_url (m : list ascii) : option (list ascii) :=
  forgiving_decode
    (pad4 (map (subst_char "_" "/") (map (subst_char "-" "+") m))).

(** What the helpers need of a character of the encoded body: it is neither
    [=] nor white space, the URL-safe substitution does not make it [=], and
    the substitution back restores it. *)
Definition good (c : ascii) : bool :=
  negb (is_eq_sign c)
  && negb (is_ascii_whitespace c)
  && negb (is_eq_sign (subst_char "/" "_" (subst_char "+" "-" c)))
  && Ascii.eqb
       (subst_char "_" "/"
          (subst_char "-" "+" (subst_char "/" "_" (subst_char "+" "-" c))))
       c.

End Base64Url.

(** ** The platform: WebCrypto and the text codecs *)

(** A [CryptoKey] for AES-GCM is identified with its raw bytes.
    [pbkdf2 pw salt iters] is [importKey("raw", pw, PBKDF2)], [deriveKey]
    (PBKDF2, SHA-256, to a 256-bit AES-GCM key) and [exportKey("raw")];
    [None] is a rejected promise.  The laws: the derived key has 256 bits
    and the derivation runs for an iteration count that fits an unsigned
    long; encryption under a 256-bit key and a 96-bit nonce runs and appends
    the 128-bit tag; decryption undoes encryption; decoding undoes encoding. *)
Class Platform : Type := {
  pbkdf2 : list byte -> list byte -> Z -> option (list byte);
  aes_gcm_encrypt : list byte -> list byte -> list byte -> option (list byte);
  aes_gcm_decrypt : list byte -> list byte -> list byte -> option (list byte);
  text_encode : string -> list byte;
  text_decode : list byte -> string;
  pbkdf2_length : forall pw salt iters k,
    pbkdf2 pw salt iters = Some k -> List.length k = 32;
  pbkdf2_runs : forall pw salt iters,
    (0 < iters < 2 ^ 32)%Z -> pbkdf2 pw salt iters <> None;
  aes_gcm_encrypt_runs : forall k iv pt,
    List.length k = 32 -> List.length iv = 12 ->
    aes_gcm_encrypt k iv pt <> None;
  aes_gcm_encrypt_length : forall k iv pt ct,
    aes_gcm_encrypt k iv pt = Some ct ->
    List.length ct = List.length pt + 16;
  aes_gcm_decrypt_encrypt : forall k iv pt ct,
    aes_gcm_encrypt k iv pt = Some ct -> aes_gcm_decrypt k iv ct = Some pt;
  text_decode_encode : forall s, text_decode (text_encode s) = s
}.

(** [crypto.subtle.importKey("raw", raw, {name: "AES-GCM"}, ...)]: only 128,
    192 and 256 bit keys are accepted. *)
Definition importKey_AES_GCM (raw : list byte) : option (list byte) :=
  match List.length raw with
  | 16 | 24 | 32 => Some raw
  | _ => None
  end.

(** ** Persistent storage and the service worker's configuration *)

(** The keys of [chrome.storage.local] the extension uses, each with the type
    of the values the code writes; [None] is an absent key. *)
Record Storage : Type := mkStorage {
  ALMA_API_KEY : option string;
  ALMA_API_KEY_C : option string;
  ALMA_API_KEY_IV : option string;
  ALMA_API_KEY_LEN : option Z;
  ALMA_KDF_ITERS : option Z;
  ALMA_PW_SALT : option string;
  ALMA_KEK_B64 : option string;
  ALMA_REGION : option string
}.

Definition empty_storage : Storage :=
  mkStorage None None None None None None None None.

Module CONFIG.

(** [CONFIG] of background.js; [ALMA_API_KEY = None] is [null]. *)
Record t : Type := mk {
  ALMA_API_KEY : option string;
  ALMA_REGION : string
}.

(** The configuration the service worker starts with. *)
Definition initial : t := mk None "NA".

(** [CONFIG.ALMA_API_KEY = v]. *)
Definition set_ALMA_API_KEY (v : option string) (c : t) : t :=
  mk v (ALMA_REGION c).

End CONFIG.

(** The session is unlocked when [CONFIG.ALMA_API_KEY] is truthy. *)
Definition unlocked (cfg : CONFIG.t) : bool :=
  truthy_string (CONFIG.ALMA_API_KEY cfg).

(** ** The options page (src/options.js) *)

(** The style class [setStatus] puts on the status line. *)
Inductive kind : Type := kind_ok | kind_err | kind_muted.

(** What a click handler leaves on the page: the last [setStatus] call, or
    nothing when the handler ended on an uncaught exception. *)
Inductive Shown : Type :=
| setStatus (id msg : string) (k : kind)
| Uncaught.

Definition succeeded (s : Shown) : bool :=
  match s with
  | setStatus _ _ kind_ok => true
  | _ => false
  end.

Section Extension.

Context {P : Platform}.

(** The [setPassword] click handler; [salt] is the value of
    [crypto.getRandomValues(new Uint8Array(16))]. *)
Definition setPassword_click (adminPassword : string) (salt : list byte)
    (st : Storage) : Storage * Shown :=
  let password := trim adminPassword in
  if negb (nonempty password) then
    (st, setStatus "lockStatus" "Enter a password to set." kind_err)
  else
    let haveK := truthy_string (ALMA_KEK_B64 st) in
    let haveS := truthy_string (ALMA_PW_SALT st) in
    let haveI := truthy_number (ALMA_KDF_ITERS st) in
    if haveK && haveS && haveI then
      (st, setStatus "lockStatus" "Password already set. Use Unlock to edit." kind_err)
    else
      let iters := 200000%Z in
      match pbkdf2 (text_encode password) salt iters with
      | None => (st, Uncaught)
      | Some raw =>
          let KEK64 := u8ToB64u raw in
          (mkStorage (ALMA_API_KEY st) (ALMA_API_KEY_C st) (ALMA_API_KEY_IV st)
             (ALMA_API_KEY_LEN st) (Some iters) (Some (b64u salt))
             (Some KEK64) (ALMA_REGION st),
           setStatus "lockStatus"
             "Password set. You can now Unlock and Save the API key." kind_ok)
      end.

(** The body of the [try] block of the [save] click handler. *)
Definition save_encrypted (apiKey region pw : string) (iv : list byte)
    (st : Storage) : option (Storage * Shown) :=
  let? salt64 := ALMA_PW_SALT st in
  let? salt := ub64 salt64 in
  let iters :=
    match ALMA_KDF_ITERS st with
    | Some n => if Z.eqb n 0 then 200000%Z else n
    | None => 200000%Z
    end in
  let? raw := pbkdf2 (text_encode pw) salt iters in
  let probe := u8ToB64u raw in
  if negb (match ALMA_KEK_B64 st with
           | Some k => String.eqb probe k
           | None => false
           end) then
    Some (st, setStatus "status" "Wrong password for encryption." kind_err)
  else
    let? ct := aes_gcm_encrypt raw iv (text_encode apiKey) in
    Some (mkStorage (ALMA_API_KEY st) (Some (b64u ct)) (Some (b64u iv))
            (Some (Z.of_nat (String.length apiKey))) (ALMA_KDF_ITERS st)
            (ALMA_PW_SALT st) (ALMA_KEK_B64 st) (Some region),
          setStatus "status" "Saved settings (encrypted)." kind_ok).

(** The [save] click handler.  [disabled] says whether the settings card has
    the class [disabled]; [apiKeyInput], [regionInput] and [adminPassword] are
    the values of the three form fields; [iv] is the value of
    [crypto.getRandomValues(new Uint8Array(12))]. *)
Definition save_click (disabled : bool)
    (apiKeyInput regionInput adminPassword : string) (iv : list byte)
    (st : Storage) : Storage * Shown :=
  if disabled then (st, setStatus "status" "Unlock first." kind_err)
  else
    let apiKey := trim apiKeyInput in
    let region := if nonempty regionInput then regionInput else "NA" in
    if negb (nonempty apiKey) then
      (mkStorage (ALMA_API_KEY st) (ALMA_API_KEY_C st) (ALMA_API_KEY_IV st)
         (ALMA_API_KEY_LEN st) (ALMA_KDF_ITERS st) (ALMA_PW_SALT st)
         (ALMA_KEK_B64 st) (Some region),
       setStatus "status" "Saved region." kind_ok)
    else
      let pw := trim adminPassword in
      if negb (nonempty pw) then
        (st, setStatus "status" "Enter password in Admin unlock to encrypt." kind_err)
      else if negb (truthy_string (ALMA_PW_SALT st))
              || negb (truthy_number (ALMA_KDF_ITERS st))
              || negb (truthy_string (ALMA_KEK_B64 st)) then
        (st, setStatus "status" "Set password first (Admin unlock → Set Password)." kind_err)
      else
        match save_encrypted apiKey region pw iv st with
        | Some r => r
        | None => (st, setStatus "status" "Save failed. See console." kind_err)
        end.

(** The [clear] click handler. *)
Definition clear_click (disabled : bool) (st : Storage) : Storage * Shown :=
  if disabled then (st, setStatus "status" "Unlock first." kind_err)
  else
    (mkStorage None None None (ALMA_API_KEY_LEN st) None None None
       (ALMA_REGION st),
     setStatus "status" "Cleared API key." kind_ok).

(** The length of the bullet mask [paintMaskedIfEncrypted] puts in the API key
    field; [None] when the field is left empty. *)
Definition paintMaskedIfEncrypted (st : Storage) : option Z :=
  if truthy_string (ALMA_API_KEY_C st) && truthy_string (ALMA_API_KEY_IV st)
  then
    Some (Z.max 1 (match ALMA_API_KEY_LEN st with
                   | Some n => if Z.eqb n 0 then 10%Z else n
                   | None => 10%Z
                   end))
  else None.

(** ** The service worker (src/background.js) *)

(** The response a message handler sends: [{ok: true}] or
    [{ok: false, error}]. *)
Inductive Response : Type :=
| ok_true
| ok_false (error : string).

(** [String(s || "")] on a value read from storage. *)
Definition String_or_empty (v : option string) : string :=
  match v with
  | Some s => s
  | None => ""
  end.

(** [tryAutoUnlockFromKEK]: the new configuration and the returned flag. *)
Definition tryAutoUnlockFromKEK (st : Storage) (cfg : CONFIG.t)
    : CONFIG.t * bool :=
  if negb (truthy_string (ALMA_API_KEY_C st))
     || negb (truthy_string (ALMA_API_KEY_IV st))
     || negb (truthy_string (ALMA_KEK_B64 st)) then
    (cfg, false)
  else
    match
      (let? kekRaw := ub64 (String_or_empty (ALMA_KEK_B64 st)) in
       let? iv := ub64 (String_or_empty (ALMA_API_KEY_IV st)) in
       let? ct := ub64 (String_or_empty (ALMA_API_KEY_C st)) in
       let? kekKey := importKey_AES_GCM kekRaw in
       aes_gcm_decrypt kekKey iv ct)
    with
    | Some buf => (CONFIG.set_ALMA_API_KEY (Some (text_decode buf)) cfg, true)
    | None => (CONFIG.set_ALMA_API_KEY None cfg, false)
    end.

(** [getUsableKey]: the new configuration and the returned key. *)
Definition getUsableKey (st : Storage) (cfg : CONFIG.t)
    : CONFIG.t * option string :=
  if unlocked cfg then (cfg, CONFIG.ALMA_API_KEY cfg)
  else
    let '(cfg', ok) := tryAutoUnlockFromKEK st cfg in
    (cfg', if ok then CONFIG.ALMA_API_KEY cfg' else None).

(** The [try] block of the [UNLOCK_ALMA_KEY] handler after the two
    completeness checks; [None] is an exception on the way. *)
Definition unlock_verified (password : string) (st : Storage) (cfg : CONFIG.t)
    : option (CONFIG.t * Response) :=
  let? salt := ub64 (String_or_empty (ALMA_PW_SALT st)) in
  let iters :=
    match ALMA_KDF_ITERS st with
    | Some n => if Z.eqb n 0 then 200000%Z else n
    | None => 200000%Z
    end in
  let? raw := pbkdf2 (text_encode password) salt iters in
  if negb (match ALMA_KEK_B64 st with
           | Some k => String.eqb (toB64u raw) k
           | None => false
           end) then
    Some (cfg, ok_false "Wrong password.")
  else if truthy_string (ALMA_API_KEY_C st)
          && truthy_string (ALMA_API_KEY_IV st) then
    let? iv := ub64 (String_or_empty (ALMA_API_KEY_IV st)) in
    let? ct := ub64 (String_or_empty (ALMA_API_KEY_C st)) in
    let? buf := aes_gcm_decrypt raw iv ct in
    Some (CONFIG.set_ALMA_API_KEY (Some (text_decode buf)) cfg, ok_true)
  else Some (cfg, ok_true).

(** The [UNLOCK_ALMA_KEY] handler; [password] is [request.password || ""]. *)
Definition UNLOCK_ALMA_KEY (password : string) (st : Storage) (cfg : CONFIG.t)
    : CONFIG.t * Response :=
  let hasK := truthy_string (ALMA_KEK_B64 st) in
  let hasS := truthy_string (ALMA_PW_SALT st) in
  let hasI := truthy_number (ALMA_KDF_ITERS st) in
  if negb hasK && negb hasS && negb hasI then
    (cfg, ok_false "No password set. Click Set Password first.")
  else if hasK && (negb hasS || negb hasI) then
    (cfg, ok_false "Password setting incomplete. Click Set Password to repair.")
  else
    match unlock_verified password st cfg with
    | Some r => r
    | None => (cfg, ok_false "Unlock failed.")
    end.

(** The [LOCK_ALMA_KEY] handler. *)
Definition LOCK_ALMA_KEY (cfg : CONFIG.t) : CONFIG.t * Response :=
  (CONFIG.set_ALMA_API_KEY None cfg, ok_true).

(** [refreshConfig]: the region is read from storage, the key is kept. *)
Definition refreshConfig (st : Storage) (cfg : CONFIG.t) : CONFIG.t :=
  CONFIG.mk (CONFIG.ALMA_API_KEY cfg)
    (match ALMA_REGION st with
     | Some r => if nonempty r then r else CONFIG.ALMA_REGION cfg
     | None => CONFIG.ALMA_REGION cfg
     end).

(** [ensureConfigLoaded], the first statement of the message listener. *)
Definition ensureConfigLoaded (st : Storage) (cfg : CONFIG.t) : CONFIG.t :=
  if negb (unlocked cfg) || negb (nonempty (CONFIG.ALMA_REGION cfg)) then
    refreshConfig st cfg
  else cfg.

(** The [unlock] click handler of the options page: the trimmed password is
    sent in an [UNLOCK_ALMA_KEY] message, so the listener of the service
    worker runs [ensureConfigLoaded] and then the handler; the result is the
    configuration of the service worker, whether the settings card is
    disabled afterwards, and the status line. *)
Definition unlock_click (disabled : bool) (adminPassword : string)
    (st : Storage) (cfg : CONFIG.t) : CONFIG.t * bool * Shown :=
  let password := trim adminPassword in
  if negb (nonempty password) then
    (cfg, disabled, setStatus "lockStatus" "Enter a password." kind_err)
  else
    match UNLOCK_ALMA_KEY password st (ensureConfigLoaded st cfg) with
    | (cfg', ok_true) => (cfg', false, setStatus "lockStatus" "Unlocked." kind_ok)
    | (cfg', ok_false error) =>
        (cfg', disabled,
         setStatus "lockStatus"
           (if nonempty error then error else "Unlock failed.") kind_err)
    end.

(** ** Readings of the storage used to state the properties *)

(** The iteration count the handlers derive with
    ([Number(ALMA_KDF_ITERS || 200000)]). *)
Definition stored_iterations (st : Storage) : Z :=
  match ALMA_KDF_ITERS st with
  | Some n => if Z.eqb n 0 then 200000%Z else n
  | None => 200000%Z
  end.

(** A complete password record, as [setPassword] and [save] test it. *)
Definition password_record_exists (st : Storage) : bool :=
  truthy_string (ALMA_KEK_B64 st)
  && truthy_string (ALMA_PW_SALT st)
  && truthy_number (ALMA_KDF_ITERS st).

(** A credential record, as [UNLOCK_ALMA_KEY] and [HAS_ENCRYPTED_KEY] test
    it. *)
Definition credential_record_exists (st : Storage) : bool :=
  truthy_string (ALMA_API_KEY_C st) && truthy_string (ALMA_API_KEY_IV st).

(** Whether the three values auto-unlock needs are all in storage. *)
Definition key_material_present (st : Storage) : bool :=
  truthy_string (ALMA_API_KEY_C st)
  && truthy_string (ALMA_API_KEY_IV st)
  && truthy_string (ALMA_KEK_B64 st).

End Extension.

(** ** The message listener and the storage listener of the service worker *)

(** The requests about the credential ([request.type] of background.js). *)
Module Request.

Inductive t : Type :=
| HAS_API_KEY
| HAS_ENCRYPTED_KEY
| UNLOCK_ALMA_KEY (password : string)
| REVEAL_ALMA_KEY
| LOCK_ALMA_KEY
| REFRESH_CONFIG.

End Request.

(** What [sendResponse] is called with: [{ok: true}], [{ok: false, error}],
    [{ok: true, hasKey}], [{ok: true, hasEncrypted}] and [{ok: true, key}]. *)
Inductive Reply : Type :=
| reply_ok
| reply_error (error : string)
| reply_hasKey (hasKey : bool)
| reply_hasEncrypted (hasEncrypted : bool)
| reply_key (key : string).

(** One entry of the [changes] object of [chrome.storage.onChanged]. *)
Record Change : Type := mkChange {
  oldValue : option string;
  newValue : option string
}.

(** The two entries of [changes] the service worker looks at; [None] is a
    key that did not change. *)
Record Changes : Type := mkChanges {
  changes_ALMA_API_KEY : option Change;
  changes_ALMA_REGION : option Change
}.

(** The change of one key between two values: reported when the value
    differs. *)
Definition change_of (old new : option string) : option Change :=
  match old, new with
  | None, None => None
  | Some a, Some b => if String.eqb a b then None else Some (mkChange old new)
  | _, _ => Some (mkChange old new)
  end.

(** The [changes] of a write that takes the storage from [old] to [new]. *)
Definition changes_between (old new : Storage) : Changes :=
  mkChanges (change_of (ALMA_API_KEY old) (ALMA_API_KEY new))
            (change_of (ALMA_REGION old) (ALMA_REGION new)).

(** The error [almaGet] and [almaPost] throw before any request is made. *)
Record KeyError : Type := mkKeyError {
  message : string;
  status : Z;
  body : option string
}.

Section Messages.

Context {P : Platform}.

(** The listener of [chrome.storage.onChanged]. *)
Definition storage_onChanged (area : string) (changes : Changes)
    (cfg : CONFIG.t) : CONFIG.t :=
  if String.eqb area "local" then
    let cfg1 :=
      match changes_ALMA_API_KEY changes with
      | Some c =>
          CONFIG.set_ALMA_API_KEY
            (if truthy_string (newValue c) then newValue c else None) cfg
      | None => cfg
      end in
    match changes_ALMA_REGION changes with
    | Some c =>
        CONFIG.mk (CONFIG.ALMA_API_KEY cfg1)
          (if truthy_string (newValue c) then String_or_empty (newValue c)
           else "NA")
    | None => cfg1
    end
  else cfg.

(** [if (!CONFIG.ALMA_API_KEY) await tryAutoUnlockFromKEK();], the first
    statement of the [HAS_API_KEY] and [REVEAL_ALMA_KEY] handlers. *)
Definition unlock_if_locked (st : Storage) (cfg : CONFIG.t) : CONFIG.t :=
  if unlocked cfg then cfg else fst (tryAutoUnlockFromKEK st cfg).

Definition reply_of (r : Response) : Reply :=
  match r with
  | ok_true => reply_ok
  | ok_false error => reply_error error
  end.

(** The message listener on the requests of [Request.t]: every handler runs
    after [ensureConfigLoaded]. *)
Definition onMessage (request : Request.t) (st : Storage) (cfg : CONFIG.t)
    : CONFIG.t * Reply :=
  let cfg := ensureConfigLoaded st cfg in
  match request with
  | Request.HAS_API_KEY =>
      let cfg' := unlock_if_locked st cfg in
      (cfg', reply_hasKey (unlocked cfg'))
  | Request.HAS_ENCRYPTED_KEY =>
      (cfg,
       reply_hasEncrypted
         (truthy_string (ALMA_API_KEY_C st)
          && truthy_string (ALMA_API_KEY_IV st)))
  | Request.UNLOCK_ALMA_KEY password =>
      let '(cfg', r) := UNLOCK_ALMA_KEY password st cfg in
      (cfg', reply_of r)
  | Request.REVEAL_ALMA_KEY =>
      let cfg' := unlock_if_locked st cfg in
      if unlocked cfg' then
        (cfg', reply_key (String_or_empty (CONFIG.ALMA_API_KEY cfg')))
      else (cfg', reply_error "Key is locked or not set.")
  | Request.LOCK_ALMA_KEY =>
      let '(cfg', r) := LOCK_ALMA_KEY cfg in
      (cfg', reply_of r)
  | Request.REFRESH_CONFIG => (refreshConfig st cfg, reply_ok)
  end.

(** [almaBaseUrl]. *)
Definition almaBaseUrl (cfg : CONFIG.t) : string :=
  let host :=
    if String.eqb (CONFIG.ALMA_REGION cfg) "NA" then
      "https://api-na.hosted.exlibrisgroup.com"
    else "https://api-eu.hosted.exlibrisgroup.com" in
  host ++ "/almaws/v1".

(** The first two statements of [almaGet] and of [almaPost]: the key
    [buildUrl] will put in the URL, or the error thrown. *)
Definition usable_key_or_throw (st : Storage) (cfg : CONFIG.t)
    : CONFIG.t * (KeyError + string) :=
  let '(cfg', key) := getUsableKey st cfg in
  if negb (truthy_string key) then
    (cfg',
     inl (mkKeyError "Alma key not available (locked/missing)." 0
            (Some "No plaintext key in memory")))
  else if negb (unlocked cfg') then
    (cfg', inl (mkKeyError "Missing API key" 0 None))
  else (cfg', inr (String_or_empty (CONFIG.ALMA_API_KEY cfg'))).

(** [checkApiKeyAndGate] of popup.js: the configuration of the service worker
    after the one or two messages, and the argument of [lockPopupUI]. *)
Definition checkApiKeyAndGate (st : Storage) (cfg : CONFIG.t)
    : CONFIG.t * bool :=
  match onMessage Request.HAS_API_KEY st cfg with
  | (cfg1, reply_hasKey true) => (cfg1, false)
  | (cfg1, _) =>
      match onMessage Request.HAS_ENCRYPTED_KEY st cfg1 with
      | (cfg2, reply_hasEncrypted true) => (cfg2, false)
      | (cfg2, _) => (cfg2, true)
      end
  end.

End Messages.

(** ** The queue of scraped vendor items (src/background.js) *)

Section VendorQueue.

(** An item of [request.items], and its truthiness ([item_truthy] is [true]
    on the objects the content script sends). *)
Context {Item : Type} (item_truthy : Item -> bool).

(** [VENDOR_QUEUE] and [VENDOR_VENDOR]. *)
Record Vendor : Type := mkVendor {
  VENDOR_QUEUE : list Item;
  VENDOR_VENDOR : string
}.

(** The [VENDOR_PREFILL] handler: [vendor] is [request.vendor || ""], [items]
    is [request.items] when that is an array; the result is the new state,
    [count] of the response and whether the popup is opened. *)
Definition VENDOR_PREFILL (vendor : string) (items : option (list Item))
    (s : Vendor) : Vendor * nat * bool :=
  let queue := match items with Some l => l | None => [] end in
  (mkVendor queue vendor, List.length queue,
   negb (Nat.eqb (List.length queue) 0)).

(** The [GET_VENDOR_PREFILL] handler: the new state and [data] of the
    response, [None] for [null]. *)
Definition GET_VENDOR_PREFILL (s : Vendor)
    : Vendor * option (string * list Item) :=
  let next :=
    match VENDOR_QUEUE s with
    | x :: _ => Some x
    | [] => None
    end in
  match next with
  | Some x =>
      if item_truthy x then (s, Some (VENDOR_VENDOR s, [x]))
      else (mkVendor (VENDOR_QUEUE s) "", None)
  | None => (mkVendor (VENDOR_QUEUE s) "", None)
  end.

(** The [ADVANCE_VENDOR_PREFILL] handler: the new state, [remaining] of the
    response and whether the popup is opened. *)
Definition ADVANCE_VENDOR_PREFILL (s : Vendor) : Vendor * nat * bool :=
  let queue := match VENDOR_QUEUE s with _ :: r => r | [] => [] end in
  let vendor := match queue with [] => "" | _ => VENDOR_VENDOR s end in
  (mkVendor queue vendor, List.length queue,
   Nat.ltb 0 (List.length queue)).

(** [k] successful orders in a row: [k] times [ADVANCE_VENDOR_PREFILL]. *)
Fixpoint advance (k : nat) (s : Vendor) : Vendor :=
  match k with
  | 0 => s
  | S k' => advance k' (fst (fst (ADVANCE_VENDOR_PREFILL s)))
  end.

End VendorQueue.

(** ** Paged listing (src/background.js) *)

#[local] Set Warnings "-register-all".

(** The values [JSON.parse] returns; numbers are the integers. *)
Inductive JSON : Type :=
| JNull
| JBool (b : bool)
| JNum (n : Z)
| JStr (s : string)
| JArr (items : list JSON)
| JObj (fields : list (string * JSON)).

(** The own property [key] of a parsed object: of two fields with the same
    name the later one is kept. *)
Fixpoint field (key : string) (fields : list (string * JSON)) : option JSON :=
  match fields with
  | [] => None
  | (k, v) :: r =>
      match field key r with
      | Some w => Some w
      | None => if String.eqb k key then Some v else None
      end
  end.

(** [cur?.[key]] for a key that is no property of arrays, strings, numbers
    or of the prototypes (as ["funds"], ["fund"], ["number"]); [None] is
    [undefined]. *)
Definition get (cur : option JSON) (key : string) : option JSON :=
  match cur with
  | Some (JObj fields) => field key fields
  | _ => None
  end.

(** [for (const key of p) cur = cur?.[key]]. *)
Definition follow (p : list string) (page : JSON) : option JSON :=
  fold_left get p (Some page).

(** The first path of [arrayPaths] that leads to an array, and that array. *)
Fixpoint find_chunk (arrayPaths : list (list string)) (page : JSON)
    : option (list JSON) :=
  match arrayPaths with
  | [] => None
  | p :: r =>
      match follow p page with
      | Some (JArr items) => Some items
      | _ => find_chunk r page
      end
  end.

(** How a loop that may not end is run: the value returned, an exception, or
    no result within the given number of rounds. *)
Inductive Outcome (A : Type) : Type :=
| Returned (a : A)
| Thrown
| Unfinished.

Arguments Returned {A} a.
Arguments Thrown {A}.
Arguments Unfinished {A}.

(** The loop of [almaGetAll].  [almaGet limit offset] is the response of
    [almaGet(path, {limit, offset})], [None] when it throws; [fuel] bounds
    the number of requests. *)
Fixpoint almaGetAll_from (fuel : nat) (almaGet : nat -> nat -> option JSON)
    (arrayPaths : list (list string)) (pageSize offset : nat)
    (out : list JSON) : Outcome (list JSON) :=
  match fuel with
  | 0 => Unfinished
  | S fuel' =>
      match almaGet pageSize offset with
      | None => Thrown
      | Some page =>
          let items :=
            match find_chunk arrayPaths page with
            | Some chunk => chunk
            | None => []
            end in
          let out := out ++ items in
          if Nat.ltb (List.length items) pageSize then Returned out
          else almaGetAll_from fuel' almaGet arrayPaths pageSize
                 (offset + pageSize) out
      end
  end.

(** The default [arrayPaths]. *)
Definition fund_paths : list (list string) := [["funds"; "fund"]; ["fund"]].

(** [almaGetAll(path, arrayPaths, pageSize)]. *)
Definition almaGetAll (fuel : nat) (almaGet : nat -> nat -> option JSON)
    (arrayPaths : list (list string)) (pageSize : nat)
    : Outcome (list JSON) :=
  almaGetAll_from fuel almaGet arrayPaths pageSize 0 [].

(** ** Request URLs and the routing of a new order line (src/background.js) *)

(** The list of name and value pairs a [URLSearchParams] holds. *)
Definition Query : Type := list (string * string).

(** [usp.has(name)]. *)
Definition usp_has (name : string) (q : Query) : bool :=
  existsb (fun p => String.eqb (fst p) name) q.

(** [usp.append(name, value)]. *)
Definition usp_append (name value : string) (q : Query) : Query :=
  q ++ [(name, value)].

(** [usp.set(name, value)]: the first pair of that name takes the value and
    the others go; without such a pair the pair is appended. *)
Fixpoint usp_set (name value : string) (q : Query) : Query :=
  match q with
  | [] => [(name, value)]
  | (k, v) :: r =>
      if String.eqb k name then
        (k, value) :: filter (fun p => negb (String.eqb (fst p) name)) r
      else (k, v) :: usp_set name value r
  end.

(** A value of the [params] object: [null] or [undefined], a string, or an
    array of strings. *)
Inductive ParamValue : Type :=
| PNull
| PString (v : string)
| PArray (items : list string).

(** The loop of [buildUrl] over [Object.entries(params)]. *)
Fixpoint merge_params (params : list (string * ParamValue)) (usp : Query)
    : Query :=
  match params with
  | [] => usp
  | (k, PNull) :: r => merge_params r usp
  | (k, PArray items) :: r =>
      merge_params r (fold_left (fun q item => usp_append k item q) items usp)
  | (k, PString v) :: r => merge_params r (usp_set k v usp)
  end.

(** [buildUrl] up to [usp.toString()]: the query of the URL as a list of
    pairs.  [search] is the query the path came with, [key] is
    [CONFIG.ALMA_API_KEY] ([String(null)] is ["null"]). *)
Definition buildUrl_query (search : Query) (key : option string)
    (params : list (string * ParamValue)) : Query :=
  let usp :=
    if negb (usp_has "apikey" search) then
      usp_set "apikey" (match key with Some k => k | None => "null" end) search
    else search in
  merge_params params usp.

(** An exception as the handlers read it: [e.status], [e.body] and
    [e.message]. *)
Record PostError : Type := mkPostError {
  err_status : option Z;
  err_body : option string;
  err_message : string
}.

(** [e.body || e.message || fallback]. *)
Definition error_text (e : PostError) (fallback : string) : string :=
  if truthy_string (err_body e) then String_or_empty (err_body e)
  else if nonempty (err_message e) then err_message e
  else fallback.

(** [e.status || 0]. *)
Definition error_status (e : PostError) : Z :=
  match err_status e with
  | Some n => n
  | None => 0%Z
  end.

(** [String.prototype.includes]. *)
Fixpoint includes (needle hay : string) : bool :=
  if String.prefix needle hay then true
  else
    match hay with
    | EmptyString => false
    | String _ r => includes needle r
    end.

Definition lower (c : ascii) : ascii :=
  let n := nat_of_ascii c in
  if Nat.leb 65 n && Nat.leb n 90 then ascii_of_nat (n + 32) else c.

Fixpoint lowercase (s : string) : string :=
  match s with
  | EmptyString => EmptyString
  | String c r => String (lower c) (lowercase r)
  end.

(** [/needle/i.test(hay)] for a needle of letters, digits, spaces and [_]. *)
Definition includes_ci (needle hay : string) : bool :=
  includes (lowercase needle) (lowercase hay).

(** Truthiness of a parsed value. *)
Definition truthy_json (v : option JSON) : bool :=
  match v with
  | None | Some JNull => false
  | Some (JBool b) => b
  | Some (JNum n) => negb (Z.eqb n 0)
  | Some (JStr s) => nonempty s
  | Some (JArr _) | Some (JObj _) => true
  end.

(** [resp?.number || resp?.po_line_number || resp?.po_line?.po_line_number
    || null]; [None] is [null]. *)
Definition poLineNumber (resp : JSON) : option JSON :=
  if truthy_json (get (Some resp) "number") then get (Some resp) "number"
  else if truthy_json (get (Some resp) "po_line_number") then
    get (Some resp) "po_line_number"
  else if truthy_json (get (get (Some resp) "po_line") "po_line_number") then
    get (get (Some resp) "po_line") "po_line_number"
  else None.

(** The responses of the [CREATE_PO_LINE] handler. *)
Inductive PoReply : Type :=
| po_no_key
| po_created (po_line_number : option JSON) (raw : JSON) (used_profile : string)
| po_failed (error : string) (status : Z) (tried : option (list string)).

(** [String(polBody?.type?.value || "").toUpperCase().startsWith("E")]: of the
    8-bit characters only [e] and [E] have an upper case form that starts
    with [E]. *)
Definition isElectronic (polType : string) : bool :=
  match polType with
  | String c _ => Ascii.eqb (lower c) "e"
  | EmptyString => false
  end.

(** The [CREATE_PO_LINE] handler after the body is built.  [hasKey] is the
    truthiness of [CONFIG.ALMA_API_KEY], [polType] the type of the body,
    [newOrderProfile] is [CONFIG.ALMA_NEW_ORDER_PROFILE], and
    [almaPost profile] is the outcome of [almaPost("acq/po-lines", polBody)]
    for the direct route ([None]) or with the two profile parameters set to
    [p] ([Some p]).  The result is the response and the routes posted to, in
    order. *)
Definition CREATE_PO_LINE (hasKey : bool) (polType : string)
    (newOrderProfile : option string)
    (almaPost : option string -> PostError + JSON)
    : PoReply * list (option string) :=
  if negb hasKey then (po_no_key, [])
  else
    let preferred :=
      trim (if truthy_string newOrderProfile
            then String_or_empty newOrderProfile
            else "ORDER_IT_API_PROFILE") in
    let alternate :=
      if String.eqb preferred "GOBI" then "ORDER_IT_API_PROFILE" else "GOBI" in
    let created resp used_profile :=
      po_created (poLineNumber resp) resp used_profile in
    let outer e :=
      po_failed (error_text e "Unknown error") (error_status e) None in
    if isElectronic polType then
      match almaPost None with
      | inr resp => (created resp "DIRECT", [None])
      | inl e => (outer e, [None])
      end
    else
      match almaPost (Some preferred) with
      | inr resp => (created resp preferred, [Some preferred])
      | inl e1 =>
          let msg :=
            if truthy_string (err_body e1) then String_or_empty (err_body e1)
            else err_message e1 in
          let status := error_status e1 in
          let isMultiProfiles :=
            includes "40188610" msg
            || includes_ci "More than one New Order API integration profiles"
                 msg in
          let isIllegalOr400 :=
            Z.eqb status 400
            || includes_ci "401872" msg || includes_ci "illegal" msg
            || includes_ci "BAD_REQUEST" msg || includes_ci "400" msg in
          if isMultiProfiles then
            match almaPost (Some alternate) with
            | inr resp =>
                (created resp alternate, [Some preferred; Some alternate])
            | inl e2 =>
                (po_failed (error_text e2 "Unknown error") (error_status e2)
                   (Some [preferred; alternate]),
                 [Some preferred; Some alternate])
            end
          else if isIllegalOr400 then
            match almaPost None with
            | inr resp => (created resp "DIRECT", [Some preferred; None])
            | inl e => (outer e, [Some preferred; None])
            end
          else
            (po_failed (error_text e1 "Unknown error") status (Some [preferred]),
             [Some preferred])
      end.

(** ** A small executable platform

    An instance of [Platform] that can be run: a key derivation that reads the
    first 32 bytes of password, salt and padding, and a cipher that masks the
    plaintext with a byte of key and nonce and appends a 16-byte tag.  It shows
    that the laws of [Platform] hold together, and serves to run the handlers
    on concrete inputs. *)

Module Reference.

Definition xor_ascii (a b : ascii) : ascii :=
  let '(Ascii a0 a1 a2 a3 a4 a5 a6 a7) := a in
  let '(Ascii b0 b1 b2 b3 b4 b5 b6 b7) := b in
  Ascii (xorb a0 b0) (xorb a1 b1) (xorb a2 b2) (xorb a3 b3)
        (xorb a4 b4) (xorb a5 b5) (xorb a6 b6) (xorb a7 b7).

Definition xor_byte (a b : byte) : byte :=
  byte_of_ascii (xor_ascii (ascii_of_byte a) (ascii_of_byte b)).

Definition mix (l : list byte) : byte := fold_left xor_byte l x2a.

Fixpoint bytes_eqb (a b : list byte) : bool :=
  match a, b with
  | [], [] => true
  | x :: a', y :: b' => Byte.eqb x y && bytes_eqb a' b'
  | _, _ => false
  end.

Definition ref_pbkdf2 (pw salt : list byte) (iters : Z) : option (list byte) :=
  if ((0 <? iters) && (iters <? 2 ^ 32))%Z then
    Some (firstn 32 (pw ++ salt ++ repeat x00 32))
  else None.

Definition valid_key (k : list byte) : bool :=
  match List.length k with
  | 16 | 24 | 32 => true
  | _ => false
  end.

Definition tag (k iv pt : list byte) : list byte :=
  repeat (mix (k ++ iv ++ pt)) 16.

Definition ref_encrypt (k iv pt : list byte) : option (list byte) :=
  if valid_key k then
    Some (map (xor_byte (mix (k ++ iv))) pt ++ tag k iv pt)
  else None.

Definition ref_decrypt (k iv ct : list byte) : option (list byte) :=
  if valid_key k then
    let n := List.length ct - 16 in
    if Nat.ltb (List.length ct) 16 then None
    else
      let pt := map (xor_byte (mix (k ++ iv))) (firstn n ct) in
      if bytes_eqb (skipn n ct) (tag k iv pt) then Some pt else None
  else None.

End Reference.

(** ** Base64 round trip *)

Module Base64Facts.
Import Base64 Base64Url.

Local Ltac Zify.zify_post_hook ::= Z.to_euclidean_division_equations.

Lemma decode_encode_sextet (s : sextet) : decode_char (encode_sextet s) = Some s.
Proof.
  destruct s as [[[[[b5 b4] b3] b2] b1] b0].
  destruct b5, b4, b3, b2, b1, b0; vm_compute; reflexivity.
Qed.

(** A three-step induction principle for lists, following the block
    structure of the encoder. *)
Lemma list_ind3 {A : Type} (Q : list A -> Prop) :
  Q [] ->
  (forall a, Q [a]) ->
  (forall a b, Q [a; b]) ->
  (forall a b c r, Q r -> Q (a :: b :: c :: r)) ->
  forall l, Q l.
Proof.
  intros H0 H1 H2 H3.
  fix IH 1.
  intros [|a [|b [|c r]]];
    [apply H0 | apply H1 | apply H2 | apply H3, IH].
Qed.

Lemma decode_encode_body (l : list ascii) :
  decode_body (encode_body l) = Some l.
Proof.
  induction l as [|a|a b|a b c r IH] using list_ind3.
  - reflexivity.
  - destruct a as [a0 a1 a2 a3 a4 a5 a6 a7]. cbn [encode_body encode1 decode_body].
    rewrite !decode_encode_sextet. reflexivity.
  - destruct a as [a0 a1 a2 a3 a4 a5 a6 a7], b as [b0 b1 b2 b3 b4 b5 b6 b7].
    cbn [encode_body encode2 decode_body].
    rewrite !decode_encode_sextet. reflexivity.
  - destruct a as [a0 a1 a2 a3 a4 a5 a6 a7], b as [b0 b1 b2 b3 b4 b5 b6 b7],
      c as [c0 c1 c2 c3 c4 c5 c6 c7].
    cbn [encode_body encode3 app decode_body].
    rewrite !decode_encode_sextet. cbn [bind]. rewrite IH. reflexivity.
  Qed.

Lemma good_sextet (s : sextet) : good (encode_sextet s) = true.
Proof.
  destruct s as [[[[[b5 b4] b3] b2] b1] b0].
  destruct b5, b4, b3, b2, b1, b0; vm_compute; reflexivity.
Qed.

Lemma good_body (l : list ascii) :
  Forall (fun c => good c = true) (encode_body l).
Proof.
  induction l as [|a|a b|a b c r IH] using list_ind3.
  - constructor.
  - destruct a as [a0 a1 a2 a3 a4 a5 a6 a7].
    repeat constructor; apply good_sextet.
  - destruct a as [a0 a1 a2 a3 a4 a5 a6 a7], b as [b0 b1 b2 b3 b4 b5 b6 b7].
    repeat constructor; apply good_sextet.
  - destruct a as [a0 a1 a2 a3 a4 a5 a6 a7], b as [b0 b1 b2 b3 b4 b5 b6 b7],
      c as [c0 c1 c2 c3 c4 c5 c6 c7].
    cbn [encode_body encode3 app].
    repeat (constructor; [apply good_sextet|]). exact IH.
Qed.

Lemma length_body (l : list ascii) : List.length (encode_body l) mod 4 <> 1.
Proof.
  induction l as [|a|a b|a b c r IH] using list_ind3.
  - cbn. lia.
  - destruct a. cbn. lia.
  - destruct a, b. cbn. lia.
  - destruct a, b, c. cbn [encode_body encode3 app List.length]. lia.
Qed.

Lemma pad4_repeat (l : list ascii) :
  List.length l mod 4 <> 1 ->
  exists k, k <= 2 /\ pad4 l = l ++ repeat "="%char k
            /\ (List.length l + k) mod 4 = 0.
Proof.
  intros H. unfold pad4.
  destruct (List.length l mod 4) as [|[|[|n]]] eqn:E.
  - exists 0. rewrite app_nil_r. repeat split; lia.
  - congruence.
  - exists 2. repeat split; lia.
  - exists 1. repeat split; lia.
Qed.

Lemma drop_while_repeat (k : nat) (l : list ascii) :
  drop_while is_eq_sign (repeat "="%char k ++ l) = drop_while is_eq_sign l.
Proof. induction k as [|k IH]; [reflexivity | exact IH]. Qed.

Lemma drop_while_none (p : ascii -> bool) (l : list ascii) :
  Forall (fun c => p c = false) l -> drop_while p l = l.
Proof. intros [|c r Hc _]; [reflexivity | cbn; now rewrite Hc]. Qed.

Lemma strip_trailing_eq_app (l : list ascii) (k : nat) :
  Forall (fun c => is_eq_sign c = false) l ->
  rev (drop_while is_eq_sign (rev (l ++ repeat "="%char k))) = l.
Proof.
  intros H.
  rewrite rev_app_distr, rev_repeat, drop_while_repeat.
  rewrite drop_while_none by (apply Forall_rev; exact H).
  apply rev_involutive.
Qed.

Lemma filter_all (p : ascii -> bool) (l : list ascii) :
  Forall (fun c => p c = true) l -> filter p l = l.
Proof.
  induction 1 as [|c r Hc _ IH]; [reflexivity | cbn; rewrite Hc, IH; reflexivity].
Qed.

Lemma map_fixed (f : ascii -> ascii) (l : list ascii) :
  Forall (fun c => f c = c) l -> map f l = l.
Proof.
  induction 1 as [|c r Hc _ IH]; [reflexivity | cbn; rewrite Hc, IH; reflexivity].
Qed.

Lemma strip_padding_app (l : list ascii) (k : nat) :
  k <= 2 -> (List.length l + k) mod 4 = 0 ->
  Forall (fun c => is_eq_sign c = false) l ->
  strip_padding (l ++ repeat "="%char k) = l.
Proof.
  intros Hk Hm Hl. unfold strip_padding.
  rewrite length_app, repeat_length, Hm. cbn [Nat.eqb].
  rewrite rev_app_distr, rev_repeat.
  assert (Hr : Forall (fun c => is_eq_sign c = false) (rev l))
    by (apply Forall_rev; exact Hl).
  assert (Hlen : List.length (rev l) = List.length l) by apply length_rev.
  destruct k as [|[|[|k]]]; [| | |lia].
  - cbn [repeat app]. rewrite app_nil_r.
    destruct (rev l) as [|c1 [|c2 r]] eqn:E; try reflexivity.
    inversion Hr as [|? ? Hc1 _]; subst. rewrite Hc1. reflexivity.
  - cbn [repeat app].
    destruct (rev l) as [|c2 r] eqn:E.
    + cbn in Hlen. rewrite <- Hlen in Hm. cbn in Hm. discriminate.
    + inversion Hr as [|? ? Hc2 _]; subst.
      change (is_eq_sign "="%char) with true. cbn iota. rewrite Hc2.
      rewrite <- E. apply rev_involutive.
  - cbn [repeat app]. change (is_eq_sign "="%char) with true. cbn iota.
    apply rev_involutive.
Qed.

Lemma good_weaken (Q : ascii -> Prop) (l : list ascii) :
  (forall c, good c = true -> Q c) ->
  Forall (fun c => good c = true) l -> Forall Q l.
Proof. intros HQ H. eapply Forall_impl; [exact HQ | exact H]. Qed.

Lemma encode_url_body (l : list ascii) :
  encode_url l
  = map (subst_char "/" "_") (map (subst_char "+" "-") (encode_body l)).
Proof.
  unfold encode_url.
  destruct (pad4_repeat (encode_body l) (length_body l)) as (k & _ & -> & _).
  rewrite !map_app, !map_repeat.
  change (subst_char "/" "_" (subst_char "+" "-" "=")) with "="%char.
  apply strip_trailing_eq_app.
  rewrite map_map. apply Forall_map.
  apply good_weaken with (2 := good_body l).
  intros c Hc. unfold good in Hc.
  apply andb_prop in Hc as [Hc _]. apply andb_prop in Hc as [_ Hc].
  now apply negb_true_iff in Hc.
Qed.

Lemma decode_encode_url (l : list ascii) : decode_url (encode_url l) = Some l.
Proof.
  unfold decode_url. rewrite encode_url_body, !map_map.
  rewrite map_fixed.
  2:{ apply good_weaken with (2 := good_body l).
      intros c Hc. unfold good in Hc. apply andb_prop in Hc as [_ Hc].
      now apply Ascii.eqb_eq in Hc. }
  destruct (pad4_repeat (encode_body l) (length_body l)) as (k & Hk & -> & Hm).
  unfold forgiving_decode.
  assert (Hne : Forall (fun c => is_eq_sign c = false) (encode_body l)).
  { apply good_weaken with (2 := good_body l).
    intros c Hc. unfold good in Hc.
    do 3 apply andb_prop in Hc as [Hc _]. now apply negb_true_iff in Hc. }
  rewrite filter_all.
  - rewrite strip_padding_app by assumption. apply decode_encode_body.
  - apply Forall_app. split.
    + apply good_weaken with (2 := good_body l).
      intros c Hc. unfold good in Hc.
      do 2 apply andb_prop in Hc as [Hc _]. apply andb_prop in Hc as [_ Hc].
      exact Hc.
    + apply Forall_forall. intros c Hc. apply repeat_spec in Hc. now subst.
Qed.

End Base64Facts.

(** ** The helpers undo each other *)

Lemma b64u_chars (bytes : list byte) :
  b64u bytes
  = string_of_list_ascii (Base64Url.encode_url (map ascii_of_byte bytes)).
Proof.
  unfold b64u, strip_trailing_eq, replace_all, on_chars, Base64.btoa,
    string_of_list_byte.
  rewrite !list_ascii_of_string_of_list_ascii. reflexivity.
Qed.

Lemma ub64_chars (s : string) :
  ub64 s
  = option_map (map byte_of_ascii)
      (Base64Url.decode_url (list_ascii_of_string s)).
Proof.
  unfold ub64, replace_all, on_chars, Base64.atob, list_byte_of_string.
  rewrite !list_ascii_of_string_of_list_ascii.
  fold (Base64Url.decode_url (list_ascii_of_string s)).
  destruct (Base64Url.decode_url (list_ascii_of_string s)) as [l|];
    [cbn; rewrite list_ascii_of_string_of_list_ascii|]; reflexivity.
Qed.

Lemma ub64_b64u (bytes : list byte) : ub64 (b64u bytes) = Some bytes.
Proof.
  rewrite ub64_chars, b64u_chars, list_ascii_of_string_of_list_ascii.
  rewrite Base64Facts.decode_encode_url. cbn [option_map].
  rewrite map_map. f_equal.
  rewrite <- (map_id bytes) at 2. apply map_ext, byte_of_ascii_of_byte.
Qed.

Lemma b64u_inj (a b : list byte) : b64u a = b64u b -> a = b.
Proof.
  intros H. apply (f_equal ub64) in H. rewrite !ub64_b64u in H. congruence.
Qed.

Lemma b64u_nonempty (bytes : list byte) :
  bytes <> [] -> nonempty (b64u bytes) = true.
Proof.
  intros H. unfold nonempty. apply negb_true_iff.
  destruct (String.eqb_spec (b64u bytes) "") as [E|]; [|reflexivity].
  exfalso. apply H. pose proof (ub64_b64u bytes) as R. rewrite E in R.
  vm_compute in R. congruence.
Qed.

(** The test vectors of RFC 4648, and the helpers on small inputs. *)
Example btoa_vectors :
  Base64.btoa "" = "" /\ Base64.btoa "f" = "Zg=="
  /\ Base64.btoa "fo" = "Zm8=" /\ Base64.btoa "foo" = "Zm9v"
  /\ Base64.btoa "foob" = "Zm9vYg==" /\ Base64.btoa "fooba" = "Zm9vYmE="
  /\ Base64.btoa "foobar" = "Zm9vYmFy".
Proof. repeat split. Qed.

Example atob_vectors :
  Base64.atob "Zm9vYg==" = Some "foob" /\ Base64.atob "Zm9vYg" = Some "foob"
  /\ Base64.atob " Zm9v YmE= " = Some "fooba" /\ Base64.atob "Zm9vY" = None
  /\ Base64.atob "Zm9vYg=" = None /\ Base64.atob "Zm9v!mFy" = None.
Proof. repeat split. Qed.

Example b64u_url_safe :
  b64u [xfb; xff] = "-_8" /\ ub64 "-_8" = Some [xfb; xff]
  /\ ub64 "+/8" = Some [xfb; xff] /\ ub64 "-" = None.
Proof. repeat split. Qed.

Example trim_examples :
  trim "  sk-test 12345 " = "sk-test 12345" /\ trim "   " = "" /\ trim "" = ""
  /\ trim (String "009" (String "010" "key")) = "key".
Proof. repeat split. Qed.

Lemma length_nonempty {A : Type} (l : list A) (n : nat) :
  List.length l = S n -> l <> [].
Proof. intros H ->. discriminate. Qed.

(** ** What the handlers do *)

Section Facts.

Context {P : Platform}.

Lemma nonempty_length (s : string) :
  nonempty s = true -> 0 < String.length s.
Proof. destruct s; [discriminate | cbn; lia]. Qed.

(** A successful [setPassword] wrote the three fields from the trimmed
    password and left the rest of the storage alone. *)
Lemma setPassword_click_set (pw : string) (salt : list byte)
    (st st1 : Storage) (sh : Shown) :
  setPassword_click pw salt st = (st1, sh) ->
  succeeded sh = true ->
  nonempty (trim pw) = true
  /\ password_record_exists st = false
  /\ exists raw,
       pbkdf2 (text_encode (trim pw)) salt 200000 = Some raw
       /\ st1 = mkStorage (ALMA_API_KEY st) (ALMA_API_KEY_C st)
                  (ALMA_API_KEY_IV st) (ALMA_API_KEY_LEN st) (Some 200000%Z)
                  (Some (b64u salt)) (Some (b64u raw)) (ALMA_REGION st).
Proof.
  unfold setPassword_click, password_record_exists.
  destruct (nonempty (trim pw)); cbn [negb].
  2:{ intros [= <- <-]; discriminate. }
  destruct (truthy_string (ALMA_KEK_B64 st) && truthy_string (ALMA_PW_SALT st)
            && truthy_number (ALMA_KDF_ITERS st)).
  { intros [= <- <-]; discriminate. }
  destruct (pbkdf2 (text_encode (trim pw)) salt 200000) as [raw|] eqn:E.
  2:{ intros [= <- <-]; discriminate. }
  intros [= <- <-] _. repeat split. exists raw. split; reflexivity.
Qed.

(** A successful [save] of a non-empty key: the card was enabled, the password
    derived the stored verifier, and the four fields were written. *)
Lemma save_click_saved (d : bool) (apiKey region pw : string) (iv : list byte)
    (st : Storage) :
  nonempty (trim apiKey) = true ->
  succeeded (snd (save_click d apiKey region pw iv st)) = true ->
  d = false
  /\ exists salt64 salt raw ct,
       ALMA_PW_SALT st = Some salt64
       /\ ub64 salt64 = Some salt
       /\ pbkdf2 (text_encode (trim pw)) salt (stored_iterations st) = Some raw
       /\ ALMA_KEK_B64 st = Some (b64u raw)
       /\ aes_gcm_encrypt raw iv (text_encode (trim apiKey)) = Some ct
       /\ save_click d apiKey region pw iv st
          = (mkStorage (ALMA_API_KEY st) (Some (b64u ct)) (Some (b64u iv))
               (Some (Z.of_nat (String.length (trim apiKey))))
               (ALMA_KDF_ITERS st) (ALMA_PW_SALT st) (ALMA_KEK_B64 st)
               (Some (if nonempty region then region else "NA")),
             setStatus "status" "Saved settings (encrypted)." kind_ok).
Proof.
  intros HT. unfold save_click. rewrite HT. cbn [negb].
  destruct d; [discriminate|].
  destruct (nonempty (trim pw)); cbn [negb]; [|discriminate].
  destruct (negb (truthy_string (ALMA_PW_SALT st))
            || negb (truthy_number (ALMA_KDF_ITERS st))
            || negb (truthy_string (ALMA_KEK_B64 st))); [discriminate|].
  unfold save_encrypted. fold (stored_iterations st).
  destruct (ALMA_PW_SALT st) as [salt64|]; cbn [bind]; [|discriminate].
  destruct (ub64 salt64) as [salt|] eqn:Es; cbn [bind]; [|discriminate].
  destruct (pbkdf2 (text_encode (trim pw)) salt (stored_iterations st))
    as [raw|] eqn:Er; cbn [bind]; [|discriminate].
  unfold u8ToB64u.
  destruct (ALMA_KEK_B64 st) as [kek|]; cbn [negb]; [|discriminate].
  destruct (String.eqb_spec (b64u raw) kek) as [<-|]; cbn [negb]; [|discriminate].
  destruct (aes_gcm_encrypt raw iv (text_encode (trim apiKey))) as [ct|] eqn:Ec;
    cbn [bind]; [|discriminate].
  intros _. split; [reflexivity|].
  exists salt64, salt, raw, ct. repeat split; assumption.
Qed.

Lemma password_record_exists_true (st : Storage) :
  password_record_exists st = true ->
  truthy_string (ALMA_KEK_B64 st) = true
  /\ truthy_string (ALMA_PW_SALT st) = true
  /\ truthy_number (ALMA_KDF_ITERS st) = true.
Proof.
  unfold password_record_exists. intros H.
  apply andb_prop in H as [H HI]. apply andb_prop in H as [HK HS]. auto.
Qed.

(** With a complete record the handler reaches the [try] block. *)
Lemma UNLOCK_complete (pw : string) (st : Storage) (cfg : CONFIG.t) :
  password_record_exists st = true ->
  UNLOCK_ALMA_KEY pw st cfg
  = match unlock_verified pw st cfg with
    | Some r => r
    | None => (cfg, ok_false "Unlock failed.")
    end.
Proof.
  intros H. apply password_record_exists_true in H as (HK & HS & HI).
  unfold UNLOCK_ALMA_KEY. rewrite HK, HS, HI. reflexivity.
Qed.

(** Unlocking with a password that derives the stored verifier. *)
Lemma UNLOCK_correct (pw : string) (st : Storage) (cfg : CONFIG.t)
    (salt raw : list byte) :
  password_record_exists st = true ->
  ub64 (String_or_empty (ALMA_PW_SALT st)) = Some salt ->
  pbkdf2 (text_encode pw) salt (stored_iterations st) = Some raw ->
  ALMA_KEK_B64 st = Some (toB64u raw) ->
  UNLOCK_ALMA_KEY pw st cfg
  = if credential_record_exists st then
      match
        (let? iv := ub64 (String_or_empty (ALMA_API_KEY_IV st)) in
         let? ct := ub64 (String_or_empty (ALMA_API_KEY_C st)) in
         aes_gcm_decrypt raw iv ct)
      with
      | Some buf =>
          (CONFIG.set_ALMA_API_KEY (Some (text_decode buf)) cfg, ok_true)
      | None => (cfg, ok_false "Unlock failed.")
      end
    else (cfg, ok_true).
Proof.
  intros Hrec Hs Hr Hk. rewrite UNLOCK_complete by exact Hrec.
  unfold unlock_verified. fold (stored_iterations st).
  fold (credential_record_exists st).
  rewrite Hs. cbn [bind]. rewrite Hr. cbn [bind]. rewrite Hk.
  rewrite String.eqb_refl. cbn [negb].
  destruct (credential_record_exists st); [|reflexivity].
  destruct (ub64 (String_or_empty (ALMA_API_KEY_IV st))) as [iv|];
    cbn [bind]; [|reflexivity].
  destruct (ub64 (String_or_empty (ALMA_API_KEY_C st))) as [ct|];
    cbn [bind]; [|reflexivity].
  destruct (aes_gcm_decrypt raw iv ct); reflexivity.
Qed.

(** Unlocking with a password that derives another key. *)
Lemma UNLOCK_wrong (pw : string) (st : Storage) (cfg : CONFIG.t)
    (salt raw : list byte) :
  password_record_exists st = true ->
  ub64 (String_or_empty (ALMA_PW_SALT st)) = Some salt ->
  pbkdf2 (text_encode pw) salt (stored_iterations st) = Some raw ->
  ALMA_KEK_B64 st <> Some (toB64u raw) ->
  UNLOCK_ALMA_KEY pw st cfg = (cfg, ok_false "Wrong password.").
Proof.
  intros Hrec Hs Hr Hk. rewrite UNLOCK_complete by exact Hrec.
  unfold unlock_verified. fold (stored_iterations st).
  rewrite Hs. cbn [bind]. rewrite Hr. cbn [bind].
  destruct (ALMA_KEK_B64 st) as [k|]; [|reflexivity].
  destruct (String.eqb_spec (toB64u raw) k) as [E|]; [congruence|reflexivity].
Qed.

(** A handler that does not answer [ok_true] has left [CONFIG] alone. *)
Lemma UNLOCK_failed_frame (pw : string) (st : Storage) (cfg : CONFIG.t) :
  snd (UNLOCK_ALMA_KEY pw st cfg) <> ok_true ->
  fst (UNLOCK_ALMA_KEY pw st cfg) = cfg.
Proof.
  unfold UNLOCK_ALMA_KEY.
  destruct (negb (truthy_string (ALMA_KEK_B64 st))
            && negb (truthy_string (ALMA_PW_SALT st))
            && negb (truthy_number (ALMA_KDF_ITERS st))); [reflexivity|].
  destruct (truthy_string (ALMA_KEK_B64 st)
            && (negb (truthy_string (ALMA_PW_SALT st))
                || negb (truthy_number (ALMA_KDF_ITERS st)))); [reflexivity|].
  unfold unlock_verified.
  destruct (ub64 (String_or_empty (ALMA_PW_SALT st))) as [salt|];
    cbn [bind]; [|reflexivity].
  destruct (pbkdf2 _ salt _) as [raw|]; cbn [bind]; [|reflexivity].
  destruct (negb _); [reflexivity|].
  destruct (truthy_string (ALMA_API_KEY_C st)
            && truthy_string (ALMA_API_KEY_IV st)); [|reflexivity].
  destruct (ub64 (String_or_empty (ALMA_API_KEY_IV st))) as [iv|];
    cbn [bind]; [|reflexivity].
  destruct (ub64 (String_or_empty (ALMA_API_KEY_C st))) as [ct|];
    cbn [bind]; [|reflexivity].
  destruct (aes_gcm_decrypt raw iv ct); cbn; [congruence|reflexivity].
Qed.

Lemma tryAutoUnlockFromKEK_missing (st : Storage) (cfg : CONFIG.t) :
  key_material_present st = false ->
  tryAutoUnlockFromKEK st cfg = (cfg, false).
Proof.
  unfold key_material_present, tryAutoUnlockFromKEK. intros H.
  rewrite <- !negb_andb, H. reflexivity.
Qed.

Lemma tryAutoUnlockFromKEK_present (st : Storage) (cfg : CONFIG.t) :
  key_material_present st = true ->
  tryAutoUnlockFromKEK st cfg
  = match
      (let? kekRaw := ub64 (String_or_empty (ALMA_KEK_B64 st)) in
       let? iv := ub64 (String_or_empty (ALMA_API_KEY_IV st)) in
       let? ct := ub64 (String_or_empty (ALMA_API_KEY_C st)) in
       let? kekKey := importKey_AES_GCM kekRaw in
       aes_gcm_decrypt kekKey iv ct)
    with
    | Some buf => (CONFIG.set_ALMA_API_KEY (Some (text_decode buf)) cfg, true)
    | None => (CONFIG.set_ALMA_API_KEY None cfg, false)
    end.
Proof.
  unfold key_material_present, tryAutoUnlockFromKEK. intros H.
  rewrite <- !negb_andb, H. reflexivity.
Qed.

(** Auto-unlock on the record a save wrote under the persisted key bytes. *)
Lemma tryAutoUnlockFromKEK_saved (st : Storage) (cfg : CONFIG.t)
    (raw iv ct pt : list byte) :
  ALMA_KEK_B64 st = Some (b64u raw) ->
  ALMA_API_KEY_IV st = Some (b64u iv) ->
  ALMA_API_KEY_C st = Some (b64u ct) ->
  List.length raw = 32 -> iv <> [] ->
  aes_gcm_encrypt raw iv pt = Some ct ->
  tryAutoUnlockFromKEK st cfg
  = (CONFIG.set_ALMA_API_KEY (Some (text_decode pt)) cfg, true).
Proof.
  intros HK HI HC Hraw Hiv Henc.
  rewrite tryAutoUnlockFromKEK_present.
  - rewrite HK, HI, HC. cbn [String_or_empty]. rewrite !ub64_b64u. cbn [bind].
    unfold importKey_AES_GCM. rewrite Hraw. cbn [bind].
    rewrite (aes_gcm_decrypt_encrypt _ _ _ _ Henc). reflexivity.
  - unfold key_material_present. rewrite HK, HI, HC. cbn [truthy_string].
    rewrite !b64u_nonempty; [reflexivity| | |].
    + apply (length_nonempty raw 31 Hraw).
    + exact Hiv.
    + apply aes_gcm_encrypt_length in Henc.
      apply (length_nonempty ct (List.length pt + 15)). lia.
Qed.

(** [setPassword] on a storage without a complete record. *)
Lemma setPassword_click_runs (pw : string) (salt : list byte) (st : Storage) :
  nonempty (trim pw) = true ->
  password_record_exists st = false ->
  exists raw,
    pbkdf2 (text_encode (trim pw)) salt 200000 = Some raw
    /\ setPassword_click pw salt st
       = (mkStorage (ALMA_API_KEY st) (ALMA_API_KEY_C st) (ALMA_API_KEY_IV st)
            (ALMA_API_KEY_LEN st) (Some 200000%Z) (Some (b64u salt))
            (Some (b64u raw)) (ALMA_REGION st),
          setStatus "lockStatus"
            "Password set. You can now Unlock and Save the API key." kind_ok).
Proof.
  intros Hpw Hrec. unfold setPassword_click.
  fold (password_record_exists st). rewrite Hpw, Hrec. cbn [negb].
  destruct (pbkdf2 (text_encode (trim pw)) salt 200000) as [raw|] eqn:E.
  - exists raw. split; reflexivity.
  - exfalso. apply (pbkdf2_runs (text_encode (trim pw)) salt 200000); [lia|exact E].
Qed.

(** [save] of a non-empty key on an enabled card, with the password that
    derives the stored verifier. *)
Lemma save_click_runs (apiKey region pw salt64 : string)
    (salt raw iv : list byte) (st : Storage) :
  nonempty (trim apiKey) = true ->
  nonempty (trim pw) = true ->
  ALMA_PW_SALT st = Some salt64 -> nonempty salt64 = true ->
  ub64 salt64 = Some salt ->
  truthy_number (ALMA_KDF_ITERS st) = true ->
  pbkdf2 (text_encode (trim pw)) salt (stored_iterations st) = Some raw ->
  ALMA_KEK_B64 st = Some (b64u raw) ->
  List.length iv = 12 ->
  exists ct,
    aes_gcm_encrypt raw iv (text_encode (trim apiKey)) = Some ct
    /\ save_click false apiKey region pw iv st
       = (mkStorage (ALMA_API_KEY st) (Some (b64u ct)) (Some (b64u iv))
            (Some (Z.of_nat (String.length (trim apiKey))))
            (ALMA_KDF_ITERS st) (ALMA_PW_SALT st) (ALMA_KEK_B64 st)
            (Some (if nonempty region then region else "NA")),
          setStatus "status" "Saved settings (encrypted)." kind_ok).
Proof.
  intros HT Hpw HS HS64 Hub HI Hraw HK Hiv.
  pose proof (pbkdf2_length _ _ _ _ Hraw) as Hlen.
  destruct (aes_gcm_encrypt raw iv (text_encode (trim apiKey))) as [ct|] eqn:Ec.
  2:{ exfalso. exact (aes_gcm_encrypt_runs _ _ _ Hlen Hiv Ec). }
  exists ct. split; [reflexivity|].
  unfold save_click. rewrite HT, Hpw. cbn [negb].
  rewrite HS, HK, HI. cbn [truthy_string]. rewrite HS64.
  rewrite (b64u_nonempty raw (length_nonempty raw 31 Hlen)). cbn [negb orb].
  unfold save_encrypted. fold (stored_iterations st).
  rewrite HS. cbn [bind]. rewrite Hub. cbn [bind]. rewrite Hraw. cbn [bind].
  rewrite HK. unfold u8ToB64u. rewrite String.eqb_refl. cbn [negb].
  rewrite Ec. cbn [bind]. reflexivity.
Qed.

(** The whole path: first-time setup, save, lock, unlock. *)
Lemma setup_save_lock_unlock (pw apiKey region : string) (salt iv : list byte)
    (st0 : Storage) (cfg : CONFIG.t) :
  List.length salt = 16 -> List.length iv = 12 ->
  nonempty (trim pw) = true ->
  password_record_exists st0 = false ->
  nonempty (trim apiKey) = true ->
  let st1 := fst (setPassword_click pw salt st0) in
  let saved := save_click false apiKey region pw iv st1 in
  succeeded (snd (setPassword_click pw salt st0)) = true
  /\ succeeded (snd saved) = true
  /\ UNLOCK_ALMA_KEY (trim pw) (fst saved) (fst (LOCK_ALMA_KEY cfg))
     = (CONFIG.set_ALMA_API_KEY (Some (trim apiKey)) cfg, ok_true).
Proof.
  intros Hsalt Hiv Hpw Hrec HT.
  destruct (setPassword_click_runs pw salt st0 Hpw Hrec) as (raw & Hraw & ->).
  cbn [fst snd succeeded]. cbv zeta.
  pose proof (pbkdf2_length _ _ _ _ Hraw) as Hlen.
  pose proof (b64u_nonempty salt (length_nonempty salt 15 Hsalt)) as Hs64.
  pose proof (b64u_nonempty raw (length_nonempty raw 31 Hlen)) as Hk64.
  pose proof (b64u_nonempty iv (length_nonempty iv 11 Hiv)) as Hiv64.
  match goal with |- context [save_click _ _ _ _ _ ?s] => set (st1 := s) end.
  destruct (save_click_runs apiKey region pw (b64u salt) salt raw iv st1)
    as (ct & Hct & ->); try reflexivity; try assumption.
  { apply ub64_b64u. }
  cbn [fst snd succeeded].
  split; [reflexivity|]. split; [reflexivity|].
  pose proof (aes_gcm_encrypt_length _ _ _ _ Hct) as Hctlen.
  erewrite UNLOCK_correct with (salt := salt) (raw := raw).
  - unfold credential_record_exists. cbn [ALMA_API_KEY_C ALMA_API_KEY_IV st1
      truthy_string String_or_empty].
    rewrite Hiv64, b64u_nonempty
      by (apply (length_nonempty ct (List.length (text_encode (trim apiKey)) + 15)); lia).
    cbn [andb]. rewrite !ub64_b64u. cbn [bind].
    rewrite (aes_gcm_decrypt_encrypt _ _ _ _ Hct), text_decode_encode.
    reflexivity.
  - unfold password_record_exists. cbn [ALMA_KEK_B64 ALMA_PW_SALT ALMA_KDF_ITERS
      st1 truthy_string truthy_number].
    rewrite Hs64, Hk64. reflexivity.
  - cbn [ALMA_PW_SALT st1 String_or_empty]. apply ub64_b64u.
  - exact Hraw.
  - reflexivity.
Qed.

(** After a successful save of a non-empty key, auto-unlock on any storage
    with the same ciphertext, nonce and key bytes puts the saved plaintext in
    the session. *)
Lemma tryAutoUnlockFromKEK_after_save (d : bool) (apiKey region pw : string)
    (iv : list byte) (st st' : Storage) (cfg : CONFIG.t) :
  List.length iv = 12 ->
  nonempty (trim apiKey) = true ->
  succeeded (snd (save_click d apiKey region pw iv st)) = true ->
  ALMA_API_KEY_C st' = ALMA_API_KEY_C (fst (save_click d apiKey region pw iv st)) ->
  ALMA_API_KEY_IV st' = ALMA_API_KEY_IV (fst (save_click d apiKey region pw iv st)) ->
  ALMA_KEK_B64 st' = ALMA_KEK_B64 (fst (save_click d apiKey region pw iv st)) ->
  tryAutoUnlockFromKEK st' cfg
  = (CONFIG.set_ALMA_API_KEY (Some (trim apiKey)) cfg, true).
Proof.
  intros Hiv HT Hok HC HI HK.
  destruct (save_click_saved d apiKey region pw iv st HT Hok)
    as (_ & salt64 & salt & raw & ct & _ & _ & Hraw & Hkek & Hct & E).
  rewrite E in HC, HI, HK. cbn [fst ALMA_API_KEY_C ALMA_API_KEY_IV ALMA_KEK_B64]
    in HC, HI, HK. rewrite Hkek in HK.
  rewrite (tryAutoUnlockFromKEK_saved st' cfg raw iv ct
             (text_encode (trim apiKey)) HK HI HC
             (pbkdf2_length _ _ _ _ Hraw) (length_nonempty iv 11 Hiv) Hct).
  now rewrite text_decode_encode.
Qed.

(** The end-to-end scenario on every platform: setup with ["Sesame1"], save
    of ["sk-test-12345"], restart of the service worker; [getUsableKey]
    returns the key without a password. *)
Lemma end_to_end_scenario (salt iv : list byte) (region : string) :
  List.length salt = 16 -> List.length iv = 12 ->
  let st1 := fst (setPassword_click "Sesame1" salt empty_storage) in
  let st2 := fst (save_click false "sk-test-12345" region "Sesame1" iv st1) in
  snd (getUsableKey st2 CONFIG.initial) = Some "sk-test-12345".
Proof.
  intros Hsalt Hiv st1 st2.
  destruct (setup_save_lock_unlock "Sesame1" "sk-test-12345" region salt iv
              empty_storage CONFIG.initial Hsalt Hiv eq_refl eq_refl eq_refl)
    as (_ & Hsaved & _).
  unfold getUsableKey. cbn [unlocked CONFIG.initial CONFIG.ALMA_API_KEY
    truthy_string].
  unfold st2.
  rewrite (tryAutoUnlockFromKEK_after_save false "sk-test-12345" region
             "Sesame1" iv st1 _ CONFIG.initial Hiv eq_refl Hsaved
             eq_refl eq_refl eq_refl).
  reflexivity.
Qed.

(** [refreshConfig], which the options page requests after a save or a clear,
    does not touch the credential of the session. *)
Lemma refreshConfig_keeps_key (st : Storage) (cfg : CONFIG.t) :
  CONFIG.ALMA_API_KEY (refreshConfig st cfg) = CONFIG.ALMA_API_KEY cfg.
Proof. reflexivity. Qed.

End Facts.

(** ** The properties of the credential vault *)

Section Claims.

Context {P : Platform}.

(** C1, as amended.  After a successful first-time password setup with the
    password [pw], a save on the enabled settings card of a key [apiKey]
    whose trimmed form is not empty succeeds; after locking, unlocking with
    [pw] answers [ok] and leaves exactly the trimmed key in the session, both
    through the message handler and through the unlock button, whose message
    also makes the listener read the saved region into the configuration. *)
Theorem save_then_unlock_roundtrip (pw apiKey region : string)
    (salt iv : list byte) (st0 : Storage) (cfg : CONFIG.t) (d : bool) :
  List.length salt = 16 -> List.length iv = 12 ->
  succeeded (snd (setPassword_click pw salt st0)) = true ->
  nonempty (trim apiKey) = true ->
  let st1 := fst (setPassword_click pw salt st0) in
  let saved := save_click false apiKey region pw iv st1 in
  let locked := fst (LOCK_ALMA_KEY cfg) in
  succeeded (snd saved) = true
  /\ CONFIG.ALMA_API_KEY locked = None
  /\ UNLOCK_ALMA_KEY (trim pw) (fst saved) locked
     = (CONFIG.set_ALMA_API_KEY (Some (trim apiKey)) cfg, ok_true)
  /\ unlock_click d pw (fst saved) locked
     = (CONFIG.mk (Some (trim apiKey))
          (if nonempty region then region else "NA"), false,
        setStatus "lockStatus" "Unlocked." kind_ok).
Proof.
  intros Hsalt Hiv Hset HT.
  destruct (setPassword_click pw salt st0) as [st1 sh] eqn:E.
  destruct (setPassword_click_set pw salt st0 st1 sh E Hset) as (Hpw & Hrec & _).
  pose proof (setup_save_lock_unlock pw apiKey region salt iv st0 cfg
                Hsalt Hiv Hpw Hrec HT) as H.
  rewrite E in H. cbv zeta in H. cbv zeta.
  destruct H as (_ & Hsaved & Hun).
  split; [exact Hsaved|]. split; [reflexivity|]. split; [exact Hun|].
  set (r := if nonempty region then region else "NA").
  assert (Hr : nonempty r = true)
    by (unfold r; destruct (nonempty region) eqn:En; [exact En | reflexivity]).
  pose proof (setup_save_lock_unlock pw apiKey region salt iv st0
                (CONFIG.mk None r) Hsalt Hiv Hpw Hrec HT) as H'.
  rewrite E in H'. cbv zeta in H'. destruct H' as (_ & _ & Hun').
  assert (Hreg : ALMA_REGION (fst (save_click false apiKey region pw iv (fst (st1, sh))))
                 = Some r).
  { destruct (save_click_saved false apiKey region pw iv (fst (st1, sh)) HT Hsaved)
      as (_ & salt64 & s & raw & ct & _ & _ & _ & _ & _ & ->).
    reflexivity. }
  cbn [fst] in *.
  assert (Hcfg : ensureConfigLoaded (fst (save_click false apiKey region pw iv st1))
                   (fst (LOCK_ALMA_KEY cfg))
                 = fst (LOCK_ALMA_KEY (CONFIG.mk None r))).
  { unfold ensureConfigLoaded, refreshConfig. rewrite Hreg, Hr. reflexivity. }
  unfold unlock_click. rewrite Hpw. cbn [negb].
  rewrite Hcfg, Hun'. reflexivity.
Qed.

(** C2.  On any storage that holds the ciphertext, nonce and key bytes a
    successful save of a non-empty key left there, auto-unlock takes no
    password, returns [true] and puts the saved plaintext in the session; and
    [getUsableKey], called on a locked session or on the configuration of a
    fresh service worker, returns the saved plaintext. *)
Theorem auto_unlock_after_save (d : bool) (apiKey region pw : string)
    (iv : list byte) (st st' : Storage) (cfg : CONFIG.t) :
  List.length iv = 12 ->
  nonempty (trim apiKey) = true ->
  succeeded (snd (save_click d apiKey region pw iv st)) = true ->
  ALMA_API_KEY_C st' = ALMA_API_KEY_C (fst (save_click d apiKey region pw iv st)) ->
  ALMA_API_KEY_IV st' = ALMA_API_KEY_IV (fst (save_click d apiKey region pw iv st)) ->
  ALMA_KEK_B64 st' = ALMA_KEK_B64 (fst (save_click d apiKey region pw iv st)) ->
  tryAutoUnlockFromKEK st' cfg
  = (CONFIG.set_ALMA_API_KEY (Some (trim apiKey)) cfg, true)
  /\ (unlocked cfg = false ->
      getUsableKey st' cfg
      = (CONFIG.set_ALMA_API_KEY (Some (trim apiKey)) cfg, Some (trim apiKey)))
  /\ getUsableKey st' CONFIG.initial
     = (CONFIG.mk (Some (trim apiKey)) "NA", Some (trim apiKey)).
Proof.
  intros Hiv HT Hok HC HI HK.
  assert (Hauto : forall c, tryAutoUnlockFromKEK st' c
                  = (CONFIG.set_ALMA_API_KEY (Some (trim apiKey)) c, true))
    by (intros c; now apply tryAutoUnlockFromKEK_after_save
                        with (d := d) (region := region) (pw := pw) (iv := iv)
                             (st := st)).
  split; [apply Hauto|].
  split.
  - intros Hl. unfold getUsableKey. rewrite Hl, Hauto. reflexivity.
  - unfold getUsableKey. cbn [unlocked CONFIG.initial CONFIG.ALMA_API_KEY
      truthy_string]. rewrite Hauto. reflexivity.
Qed.

(** C3, as amended.  The setup stores the verifier of the trimmed password.
    After a successful first-time password setup with [pw], unlocking with a
    password [other] whose derived key differs from the one the trimmed [pw]
    derives under the stored salt and iteration count answers
    ["Wrong password."] and leaves the configuration, and with it the
    session, as it was; sent as a message through the listener it gets the
    same answer and the key in memory is left as it was. *)
Theorem unlock_wrong_password (pw other : string) (salt : list byte)
    (st0 : Storage) (cfg : CONFIG.t) :
  List.length salt = 16 ->
  succeeded (snd (setPassword_click pw salt st0)) = true ->
  pbkdf2 (text_encode other) salt 200000
  <> pbkdf2 (text_encode (trim pw)) salt 200000 ->
  let st1 := fst (setPassword_click pw salt st0) in
  UNLOCK_ALMA_KEY other st1 cfg = (cfg, ok_false "Wrong password.")
  /\ snd (onMessage (Request.UNLOCK_ALMA_KEY other) st1 cfg)
     = reply_error "Wrong password."
  /\ CONFIG.ALMA_API_KEY (fst (onMessage (Request.UNLOCK_ALMA_KEY other) st1 cfg))
     = CONFIG.ALMA_API_KEY cfg.
Proof.
  intros Hsalt Hset Hdiff.
  destruct (setPassword_click pw salt st0) as [st1 sh] eqn:E.
  destruct (setPassword_click_set pw salt st0 st1 sh E Hset)
    as (_ & _ & raw & Hraw & ->).
  cbv zeta. cbn [fst].
  match goal with
  | |- UNLOCK_ALMA_KEY other ?s cfg = _ /\ _ => set (st1 := s)
  end.
  assert (Hwrong : forall c,
    UNLOCK_ALMA_KEY other st1 c = (c, ok_false "Wrong password.")).
  { intros c.
    destruct (pbkdf2 (text_encode other) salt 200000) as [raw'|] eqn:Eo.
    2:{ exfalso.
        apply (pbkdf2_runs (text_encode other) salt 200000); [lia|exact Eo]. }
    apply UNLOCK_wrong with (salt := salt) (raw := raw').
    - unfold password_record_exists, st1.
      cbn [ALMA_KEK_B64 ALMA_PW_SALT ALMA_KDF_ITERS truthy_string truthy_number].
      rewrite (b64u_nonempty salt (length_nonempty salt 15 Hsalt)).
      rewrite (b64u_nonempty raw
                 (length_nonempty raw 31 (pbkdf2_length _ _ _ _ Hraw))).
      reflexivity.
    - cbn [st1 ALMA_PW_SALT String_or_empty]. apply ub64_b64u.
    - exact Eo.
    - cbn [st1 ALMA_KEK_B64]. unfold toB64u. intros [= H].
      apply b64u_inj in H. congruence. }
  split; [apply Hwrong|].
  unfold onMessage. rewrite Hwrong. cbn [fst snd reply_of].
  split; [reflexivity|].
  unfold ensureConfigLoaded, refreshConfig.
  destruct (_ || _); reflexivity.
Qed.

(** C4, what the code does.  On a storage that holds a salt but neither
    iteration count nor verifier, [UNLOCK_ALMA_KEY] leaves the session as it
    was and answers ["Wrong password."] for every password (or
    ["Unlock failed."] when the salt does not decode), never the error for an
    incomplete setup. *)
Theorem unlock_salt_only (pw : string) (st : Storage) (cfg : CONFIG.t) :
  truthy_string (ALMA_PW_SALT st) = true ->
  ALMA_KDF_ITERS st = None -> ALMA_KEK_B64 st = None ->
  UNLOCK_ALMA_KEY pw st cfg
  = (cfg,
     ok_false
       (match ub64 (String_or_empty (ALMA_PW_SALT st)) with
        | Some _ => "Wrong password."
        | None => "Unlock failed."
        end)).
Proof.
  intros HS HI HK.
  unfold UNLOCK_ALMA_KEY, unlock_verified. rewrite HS, HI, HK.
  cbn [truthy_string truthy_number negb andb orb].
  destruct (ub64 (String_or_empty (ALMA_PW_SALT st))) as [salt|];
    cbn [bind]; [|reflexivity].
  destruct (pbkdf2 (text_encode pw) salt 200000) as [raw|] eqn:E.
  - reflexivity.
  - exfalso. apply (pbkdf2_runs (text_encode pw) salt 200000); [lia|exact E].
Qed.

(** C5, what the code does.  On an enabled settings card two clears in a row
    both succeed, the second changes nothing, and afterwards salt, iteration
    count, verifier, ciphertext and nonce are absent; the plaintext length is
    not removed and stays as it was. *)
Theorem clear_twice_keeps_length (st : Storage) :
  let once := clear_click false st in
  let twice := clear_click false (fst once) in
  succeeded (snd once) = true /\ succeeded (snd twice) = true
  /\ fst twice = fst once
  /\ ALMA_PW_SALT (fst twice) = None
  /\ ALMA_KDF_ITERS (fst twice) = None
  /\ ALMA_KEK_B64 (fst twice) = None
  /\ ALMA_API_KEY_C (fst twice) = None
  /\ ALMA_API_KEY_IV (fst twice) = None
  /\ ALMA_API_KEY_LEN (fst twice) = ALMA_API_KEY_LEN st.
Proof. cbn. repeat split. Qed.

(** C6.  On a storage with a complete password record, [setPassword] leaves
    the storage as it is and does not succeed, and for a non-empty password
    the status is the error ["Password already set. Use Unlock to edit."];
    so whenever [setPassword] changes the storage or succeeds, no complete
    record was there. *)
Theorem setPassword_no_overwrite (pw : string) (salt : list byte)
    (st : Storage) :
  (password_record_exists st = true ->
   fst (setPassword_click pw salt st) = st
   /\ succeeded (snd (setPassword_click pw salt st)) = false
   /\ (nonempty (trim pw) = true ->
       snd (setPassword_click pw salt st)
       = setStatus "lockStatus" "Password already set. Use Unlock to edit."
           kind_err))
  /\ (fst (setPassword_click pw salt st) <> st
      \/ succeeded (snd (setPassword_click pw salt st)) = true ->
      password_record_exists st = false).
Proof.
  unfold setPassword_click. fold (password_record_exists st).
  destruct (nonempty (trim pw)); cbn [negb].
  - destruct (password_record_exists st).
    + split; [intros _; repeat split|].
      intros [H|H]; [now contradiction H | discriminate H].
    + split; [discriminate | reflexivity].
  - split; [intros _; repeat split; discriminate|].
    intros [H|H]; [now contradiction H | discriminate H].
Qed.

(** C7.  On a storage with a complete password record and no credential
    record (ciphertext or nonce absent), unlocking with a password that
    derives the stored verifier answers [ok] and leaves the configuration as
    it was: a session without a credential stays without one. *)
Theorem unlock_without_credential (pw : string) (st : Storage)
    (cfg : CONFIG.t) (salt raw : list byte) :
  password_record_exists st = true ->
  credential_record_exists st = false ->
  ub64 (String_or_empty (ALMA_PW_SALT st)) = Some salt ->
  pbkdf2 (text_encode pw) salt (stored_iterations st) = Some raw ->
  ALMA_KEK_B64 st = Some (toB64u raw) ->
  UNLOCK_ALMA_KEY pw st cfg = (cfg, ok_true)
  /\ (CONFIG.ALMA_API_KEY cfg = None ->
      CONFIG.ALMA_API_KEY (fst (UNLOCK_ALMA_KEY pw st cfg)) = None).
Proof.
  intros Hrec Hcred Hs Hr Hk.
  rewrite (UNLOCK_correct pw st cfg salt raw Hrec Hs Hr Hk), Hcred.
  split; [reflexivity | intros H; exact H].
Qed.

(** C8, as amended.  An unlock that does not answer [ok] leaves the
    configuration as it was.  An auto-unlock that returns [false] leaves the
    configuration as it was when ciphertext, nonce or key bytes are missing
    from storage, and otherwise (a value does not decode, the key is not
    imported or decryption fails) sets the credential to [null]: a locked
    session stays locked. *)
Theorem failed_unlock_session (pw : string) (st : Storage) (cfg : CONFIG.t) :
  (snd (UNLOCK_ALMA_KEY pw st cfg) <> ok_true ->
   fst (UNLOCK_ALMA_KEY pw st cfg) = cfg)
  /\ (snd (tryAutoUnlockFromKEK st cfg) = false ->
      (key_material_present st = false ->
       fst (tryAutoUnlockFromKEK st cfg) = cfg)
      /\ (key_material_present st = true ->
          fst (tryAutoUnlockFromKEK st cfg) = CONFIG.set_ALMA_API_KEY None cfg)
      /\ (unlocked cfg = false ->
          unlocked (fst (tryAutoUnlockFromKEK st cfg)) = false)).
Proof.
  split; [apply UNLOCK_failed_frame|].
  destruct (key_material_present st) eqn:E.
  - rewrite (tryAutoUnlockFromKEK_present st cfg E).
    destruct (bind _ _); cbn [fst snd]; [discriminate|].
    intros _. repeat split; try discriminate; reflexivity.
  - rewrite (tryAutoUnlockFromKEK_missing st cfg E). cbn [fst snd].
    intros _. repeat split; try discriminate; auto.
Qed.

(** C9.  On an enabled settings card, a save whose API key field is empty or
    white space only succeeds whatever the password field holds, writes the
    region (["NA"] for an empty region field) and leaves every field of the
    credential record and of the password record as it was. *)
Theorem save_region_only (apiKey region pw : string) (iv : list byte)
    (st : Storage) :
  nonempty (trim apiKey) = false ->
  let r := save_click false apiKey region pw iv st in
  snd r = setStatus "status" "Saved region." kind_ok
  /\ succeeded (snd r) = true
  /\ ALMA_REGION (fst r) = Some (if nonempty region then region else "NA")
  /\ ALMA_API_KEY_C (fst r) = ALMA_API_KEY_C st
  /\ ALMA_API_KEY_IV (fst r) = ALMA_API_KEY_IV st
  /\ ALMA_API_KEY_LEN (fst r) = ALMA_API_KEY_LEN st
  /\ ALMA_PW_SALT (fst r) = ALMA_PW_SALT st
  /\ ALMA_KDF_ITERS (fst r) = ALMA_KDF_ITERS st
  /\ ALMA_KEK_B64 (fst r) = ALMA_KEK_B64 st
  /\ ALMA_API_KEY (fst r) = ALMA_API_KEY st.
Proof.
  intros H. unfold save_click. rewrite H. cbn. repeat split.
Qed.

(** C10.  After a successful save of a non-empty key, the stored length is
    the number of characters of the trimmed key, the stored ciphertext is the
    encryption of that trimmed key, and the bullet mask painted from storage
    has that many characters. *)
Theorem save_length_field (d : bool) (apiKey region pw : string)
    (iv : list byte) (st : Storage) :
  List.length iv = 12 ->
  nonempty (trim apiKey) = true ->
  succeeded (snd (save_click d apiKey region pw iv st)) = true ->
  let st' := fst (save_click d apiKey region pw iv st) in
  ALMA_API_KEY_LEN st' = Some (Z.of_nat (String.length (trim apiKey)))
  /\ (exists raw ct,
        aes_gcm_encrypt raw iv (text_encode (trim apiKey)) = Some ct
        /\ ALMA_API_KEY_C st' = Some (b64u ct))
  /\ paintMaskedIfEncrypted st'
     = Some (Z.of_nat (String.length (trim apiKey))).
Proof.
  intros Hiv HT Hok.
  destruct (save_click_saved d apiKey region pw iv st HT Hok)
    as (_ & salt64 & salt & raw & ct & _ & _ & _ & _ & Hct & ->).
  cbv zeta. cbn [fst ALMA_API_KEY_LEN ALMA_API_KEY_C].
  split; [reflexivity|]. split; [exists raw, ct; split; [exact Hct|reflexivity]|].
  unfold paintMaskedIfEncrypted.
  cbn [ALMA_API_KEY_C ALMA_API_KEY_IV ALMA_API_KEY_LEN truthy_string].
  pose proof (aes_gcm_encrypt_length _ _ _ _ Hct) as Hlen.
  rewrite (b64u_nonempty iv (length_nonempty iv 11 Hiv)).
  rewrite b64u_nonempty
    by (apply (length_nonempty ct (List.length (text_encode (trim apiKey)) + 15)); lia).
  cbn [andb]. pose proof (nonempty_length _ HT) as Hpos.
  destruct (Z.eqb_spec (Z.of_nat (String.length (trim apiKey))) 0); [lia|].
  f_equal. lia.
Qed.

End Claims.

(** ** The executable platform satisfies the laws *)

Module ReferenceLaws.
Import Reference.

Lemma xor_byte_involutive (m x : byte) : xor_byte m (xor_byte m x) = x.
Proof.
  unfold xor_byte. rewrite ascii_of_byte_of_ascii.
  rewrite <- (byte_of_ascii_of_byte x) at 2. f_equal.
  destruct (ascii_of_byte m), (ascii_of_byte x). cbn.
  now rewrite <- !xorb_assoc, !xorb_nilpotent, !xorb_false_l.
Qed.

Lemma bytes_eqb_refl (a : list byte) : bytes_eqb a a = true.
Proof.
  induction a as [|x a IH]; [reflexivity|].
  cbn. now rewrite (byte_dec_lb (eq_refl x)), IH.
Qed.

Lemma ref_pbkdf2_length pw salt iters k :
  ref_pbkdf2 pw salt iters = Some k -> List.length k = 32.
Proof.
  unfold ref_pbkdf2.
  destruct ((0 <? iters) && (iters <? 2 ^ 32))%Z; [|discriminate].
  intros H.
  replace k with (firstn 32 (pw ++ salt ++ repeat x00 32)) by congruence.
  rewrite length_firstn, !length_app, repeat_length. lia.
Qed.

Lemma ref_pbkdf2_runs pw salt iters :
  (0 < iters < 2 ^ 32)%Z -> ref_pbkdf2 pw salt iters <> None.
Proof.
  intros [H1 H2]. unfold ref_pbkdf2.
  apply Z.ltb_lt in H1, H2. now rewrite H1, H2.
Qed.

Lemma ref_encrypt_runs k iv pt :
  List.length k = 32 -> List.length iv = 12 -> ref_encrypt k iv pt <> None.
Proof. intros Hk _. unfold ref_encrypt, valid_key. now rewrite Hk. Qed.

Lemma ref_encrypt_length k iv pt ct :
  ref_encrypt k iv pt = Some ct -> List.length ct = List.length pt + 16.
Proof.
  unfold ref_encrypt. destruct (valid_key k); [|discriminate].
  intros [= <-]. unfold tag. now rewrite length_app, length_map, repeat_length.
Qed.

Lemma ref_decrypt_encrypt k iv pt ct :
  ref_encrypt k iv pt = Some ct -> ref_decrypt k iv ct = Some pt.
Proof.
  unfold ref_encrypt, ref_decrypt. destruct (valid_key k); [|discriminate].
  intros [= <-].
  set (body := map (xor_byte (mix (k ++ iv))) pt).
  assert (Hn : List.length (body ++ tag k iv pt) - 16 = List.length body).
  { unfold tag. rewrite length_app, repeat_length. lia. }
  rewrite Hn.
  assert (Hlt : Nat.ltb (List.length (body ++ tag k iv pt)) 16 = false).
  { apply Nat.ltb_ge. unfold tag. rewrite length_app, repeat_length. lia. }
  rewrite Hlt.
  rewrite firstn_app, firstn_all, Nat.sub_diag, firstn_O, app_nil_r.
  rewrite skipn_app, skipn_all, Nat.sub_diag, skipn_O, app_nil_l.
  assert (Hpt : map (xor_byte (mix (k ++ iv))) body = pt).
  { unfold body. rewrite map_map. rewrite <- (map_id pt) at 2.
    apply map_ext, xor_byte_involutive. }
  rewrite Hpt, bytes_eqb_refl. reflexivity.
Qed.

End ReferenceLaws.

(** The executable platform. *)
Definition reference_platform : Platform := {|
  pbkdf2 := Reference.ref_pbkdf2;
  aes_gcm_encrypt := Reference.ref_encrypt;
  aes_gcm_decrypt := Reference.ref_decrypt;
  text_encode := list_byte_of_string;
  text_decode := string_of_list_byte;
  pbkdf2_length := ReferenceLaws.ref_pbkdf2_length;
  pbkdf2_runs := ReferenceLaws.ref_pbkdf2_runs;
  aes_gcm_encrypt_runs := ReferenceLaws.ref_encrypt_runs;
  aes_gcm_encrypt_length := ReferenceLaws.ref_encrypt_length;
  aes_gcm_decrypt_encrypt := ReferenceLaws.ref_decrypt_encrypt;
  text_decode_encode := string_of_list_byte_of_string
|}.

(** ** The handlers on concrete inputs *)

Definition example_salt : list byte := list_byte_of_string "0123456789abcdef".

Definition example_iv : list byte := list_byte_of_string "0123456789ab".

(** The storage after a first-time setup with the password ["Sesame1"] on the
    executable platform. *)
Definition example_set : Storage :=
  fst (setPassword_click (P := reference_platform) "Sesame1" example_salt
         empty_storage).

(** The storage after the key ["sk-test-12345"] was saved on top of it. *)
Definition example_saved : Storage :=
  fst (save_click (P := reference_platform) false "sk-test-12345" "NA"
         "Sesame1" example_iv example_set).

(** C1: the claim as stated fails for a key with surrounding white space.  On
    every platform, setup with ["Sesame1"], save of [" sk-test-12345"], lock
    and unlock with ["Sesame1"] all succeed, and the session does not hold
    the key as it was entered. *)
Lemma save_then_unlock_untrimmed :
  exists (pw apiKey : string) (salt iv : list byte),
    List.length salt = 16 /\ List.length iv = 12
    /\ forall (P : Platform) (cfg : CONFIG.t),
         let st1 := fst (setPassword_click pw salt empty_storage) in
         let saved := save_click false apiKey "NA" pw iv st1 in
         let res := UNLOCK_ALMA_KEY pw (fst saved) (fst (LOCK_ALMA_KEY cfg)) in
         succeeded (snd (setPassword_click pw salt empty_storage)) = true
         /\ succeeded (snd saved) = true
         /\ snd res = ok_true
         /\ CONFIG.ALMA_API_KEY (fst res) = Some "sk-test-12345"
         /\ CONFIG.ALMA_API_KEY (fst res) <> Some apiKey.
Proof.
  exists "Sesame1", " sk-test-12345", example_salt, example_iv.
  split; [reflexivity|]. split; [reflexivity|].
  intros P cfg.
  pose proof (setup_save_lock_unlock "Sesame1" " sk-test-12345" "NA"
                example_salt example_iv empty_storage cfg
                eq_refl eq_refl eq_refl eq_refl eq_refl) as H.
  cbv zeta in H. cbv zeta. destruct H as (H1 & H2 & H3).
  change (trim "Sesame1") with "Sesame1" in H3.
  change (trim " sk-test-12345") with "sk-test-12345" in H3.
  rewrite H3. cbn [fst snd CONFIG.ALMA_API_KEY CONFIG.set_ALMA_API_KEY].
  repeat split; try assumption. discriminate.
Qed.

(** C1 on the executable platform: setup with ["Sesame1"], save of
    ["sk-test-12345"], lock, unlock. *)
Lemma save_then_unlock_roundtrip_witness :
  (List.length example_salt = 16 /\ List.length example_iv = 12
   /\ succeeded (snd (setPassword_click (P := reference_platform) "Sesame1"
                        example_salt empty_storage)) = true
   /\ nonempty (trim "sk-test-12345") = true)
  /\ UNLOCK_ALMA_KEY (P := reference_platform) "Sesame1" example_saved
       (fst (LOCK_ALMA_KEY CONFIG.initial))
     = (CONFIG.mk (Some "sk-test-12345") "NA", ok_true).
Proof.
  split; [repeat split|].
  exact (proj1 (proj2 (proj2
    (save_then_unlock_roundtrip (P := reference_platform) "Sesame1"
       "sk-test-12345" "NA" example_salt example_iv empty_storage
       CONFIG.initial true eq_refl eq_refl eq_refl eq_refl)))).
Defined.

(** C2 on the executable platform: a fresh service worker gets the saved key
    from [getUsableKey]. *)
Lemma auto_unlock_after_save_witness :
  (List.length example_iv = 12
   /\ nonempty (trim "sk-test-12345") = true
   /\ succeeded (snd (save_click (P := reference_platform) false
                        "sk-test-12345" "NA" "Sesame1" example_iv
                        example_set)) = true)
  /\ getUsableKey (P := reference_platform) example_saved CONFIG.initial
     = (CONFIG.mk (Some "sk-test-12345") "NA", Some "sk-test-12345").
Proof.
  split; [repeat split|].
  exact (proj2 (proj2
    (auto_unlock_after_save (P := reference_platform) false "sk-test-12345"
       "NA" "Sesame1" example_iv example_set example_saved CONFIG.initial
       eq_refl eq_refl eq_refl eq_refl eq_refl eq_refl))).
Defined.

(** C3: the claim as stated fails for a password with surrounding white
    space.  [" Sesame1"] and ["Sesame1"] are two different non-empty
    passwords, and on the executable platform the keys derived from them as
    entered differ; yet on every platform the setup with [" Sesame1"]
    succeeds and the unlock with ["Sesame1"] answers [ok], not
    ["Wrong password."], because the setup stored the verifier of the
    trimmed password. *)
Lemma unlock_after_untrimmed_setup :
  exists (pw other : string) (salt : list byte),
    pw <> other /\ nonempty pw = true /\ nonempty other = true
    /\ List.length salt = 16
    /\ pbkdf2 (Platform := reference_platform)
         (text_encode (Platform := reference_platform) pw) salt 200000
       <> pbkdf2 (Platform := reference_platform)
            (text_encode (Platform := reference_platform) other) salt 200000
    /\ forall (P : Platform) (cfg : CONFIG.t),
         let st1 := fst (setPassword_click pw salt empty_storage) in
         succeeded (snd (setPassword_click pw salt empty_storage)) = true
         /\ UNLOCK_ALMA_KEY other st1 cfg = (cfg, ok_true)
         /\ snd (onMessage (Request.UNLOCK_ALMA_KEY other) st1 cfg) = reply_ok
         /\ snd (UNLOCK_ALMA_KEY other st1 cfg) <> ok_false "Wrong password.".
Proof.
  exists " Sesame1", "Sesame1", example_salt.
  split; [discriminate|]. split; [reflexivity|]. split; [reflexivity|].
  split; [reflexivity|]. split; [vm_compute; discriminate|].
  intros P cfg. cbv zeta.
  destruct (setPassword_click_runs " Sesame1" example_salt empty_storage
              eq_refl eq_refl) as (raw & Hraw & ->).
  cbn [fst snd succeeded].
  change (trim " Sesame1") with "Sesame1" in Hraw.
  match goal with
  | |- _ /\ UNLOCK_ALMA_KEY _ ?s cfg = _ /\ _ => set (st1 := s)
  end.
  assert (Hok : forall c, UNLOCK_ALMA_KEY "Sesame1" st1 c = (c, ok_true)).
  { intros c.
    rewrite (UNLOCK_correct "Sesame1" st1 c example_salt raw).
    - reflexivity.
    - unfold password_record_exists, st1.
      cbn [ALMA_KEK_B64 ALMA_PW_SALT ALMA_KDF_ITERS truthy_string truthy_number].
      rewrite (b64u_nonempty example_salt
                 (length_nonempty example_salt 15 eq_refl)).
      rewrite (b64u_nonempty raw
                 (length_nonempty raw 31 (pbkdf2_length _ _ _ _ Hraw))).
      reflexivity.
    - cbn [st1 ALMA_PW_SALT String_or_empty]. apply ub64_b64u.
    - exact Hraw.
    - reflexivity. }
  split; [reflexivity|]. split; [apply Hok|].
  unfold onMessage. rewrite !Hok. cbn [snd reply_of].
  split; [reflexivity | discriminate].
Qed.

(** C3 on the executable platform: setup with ["Sesame1"], unlock with
    ["Sesame2"]. *)
Lemma unlock_wrong_password_witness :
  (List.length example_salt = 16
   /\ succeeded (snd (setPassword_click (P := reference_platform) "Sesame1"
                        example_salt empty_storage)) = true
   /\ pbkdf2 (Platform := reference_platform)
        (text_encode (Platform := reference_platform) "Sesame2")
        example_salt 200000
      <> pbkdf2 (Platform := reference_platform)
           (text_encode (Platform := reference_platform) (trim "Sesame1"))
           example_salt 200000)
  /\ UNLOCK_ALMA_KEY (P := reference_platform) "Sesame2" example_set
       CONFIG.initial
     = (CONFIG.initial, ok_false "Wrong password.").
Proof.
  assert (Hdiff :
    pbkdf2 (Platform := reference_platform)
        (text_encode (Platform := reference_platform) "Sesame2")
      example_salt 200000
    <> pbkdf2 (Platform := reference_platform)
           (text_encode (Platform := reference_platform) (trim "Sesame1"))
         example_salt 200000)
    by (vm_compute; discriminate).
  split; [repeat split; exact Hdiff|].
  exact (proj1
           (unlock_wrong_password (P := reference_platform) "Sesame1" "Sesame2"
              example_salt empty_storage CONFIG.initial eq_refl eq_refl Hdiff)).
Defined.

(** A storage in which only the salt of the password record is left. *)
Definition salt_only : Storage :=
  mkStorage None None None None None (Some "MDEyMzQ1Njc4OWFiY2RlZg") None None.

(** C4 at the failing input. *)
Lemma unlock_salt_only_witness :
  (truthy_string (ALMA_PW_SALT salt_only) = true
   /\ ALMA_KDF_ITERS salt_only = None /\ ALMA_KEK_B64 salt_only = None)
  /\ UNLOCK_ALMA_KEY (P := reference_platform) "Sesame1" salt_only
       CONFIG.initial
     = (CONFIG.initial, ok_false "Wrong password.").
Proof.
  split; [repeat split|].
  exact (unlock_salt_only (P := reference_platform) "Sesame1" salt_only
           CONFIG.initial eq_refl eq_refl eq_refl).
Defined.

(** C5 on a storage that holds a saved key: after two clears the length 13
    of the key is still in storage. *)
Example clear_twice_example :
  ALMA_API_KEY_LEN example_saved = Some 13%Z
  /\ ALMA_API_KEY_LEN
       (fst (clear_click false (fst (clear_click false example_saved))))
     = Some 13%Z.
Proof. split; vm_compute; reflexivity. Qed.

(** C6 on the executable platform: a second setup is refused. *)
Lemma setPassword_no_overwrite_witness :
  password_record_exists example_set = true
  /\ setPassword_click (P := reference_platform) "Sesame2" example_salt
       example_set
     = (example_set,
        setStatus "lockStatus" "Password already set. Use Unlock to edit."
          kind_err).
Proof.
  split; [reflexivity|].
  destruct (setPassword_no_overwrite (P := reference_platform) "Sesame2"
              example_salt example_set) as [H _].
  destruct (H eq_refl) as (H1 & _ & H3).
  rewrite (surjective_pairing (setPassword_click "Sesame2" example_salt example_set)).
  rewrite H1, (H3 eq_refl). reflexivity.
Defined.

(** C7 on the executable platform: unlock after setup, before any save. *)
Lemma unlock_without_credential_witness :
  (password_record_exists example_set = true
   /\ credential_record_exists example_set = false
   /\ ub64 (String_or_empty (ALMA_PW_SALT example_set)) = Some example_salt
   /\ ALMA_API_KEY_C example_set = None)
  /\ UNLOCK_ALMA_KEY (P := reference_platform) "Sesame1" example_set
       CONFIG.initial
     = (CONFIG.initial, ok_true).
Proof.
  split; [repeat split|].
  exact (proj1
    (unlock_without_credential (P := reference_platform) "Sesame1" example_set
       CONFIG.initial example_salt
       (firstn 32 (list_byte_of_string "Sesame1" ++ example_salt
                   ++ repeat x00 32))
       eq_refl eq_refl eq_refl eq_refl eq_refl)).
Defined.

(** A storage whose key bytes are too short to be an AES key. *)
Definition short_key : Storage :=
  mkStorage None (Some "QFgeR1ZARx4CAQAHBgwMDAwMDAwMDAwMDAwMDAw")
    (Some "MDEyMzQ1Njc4OWFi") (Some 13%Z) (Some 200000%Z)
    (Some "MDEyMzQ1Njc4OWFiY2RlZg") (Some "c2VjcmV0") (Some "NA").

(** C8: the claim as stated fails for auto-unlock.  There is a storage with
    ciphertext, nonce and key bytes present on which, on every platform,
    auto-unlock called with an unlocked session returns [false] and leaves
    the session locked. *)
Lemma auto_unlock_failure_locks :
  exists (st : Storage) (cfg : CONFIG.t),
    key_material_present st = true
    /\ unlocked cfg = true
    /\ forall P : Platform,
         snd (tryAutoUnlockFromKEK st cfg) = false
         /\ CONFIG.ALMA_API_KEY (fst (tryAutoUnlockFromKEK st cfg)) = None
         /\ unlocked (fst (tryAutoUnlockFromKEK st cfg)) = false
         /\ fst (tryAutoUnlockFromKEK st cfg) <> cfg.
Proof.
  exists short_key, (CONFIG.mk (Some "sk-test-12345") "NA").
  split; [reflexivity|]. split; [reflexivity|].
  intros P. rewrite tryAutoUnlockFromKEK_present by reflexivity.
  change (ub64 (String_or_empty (ALMA_KEK_B64 short_key)))
    with (Some (list_byte_of_string "secret")).
  change (ub64 (String_or_empty (ALMA_API_KEY_IV short_key)))
    with (Some example_iv).
  destruct (ub64 (String_or_empty (ALMA_API_KEY_C short_key))) as [ct|];
    cbn; repeat split; discriminate.
Qed.

(** C8 on the executable platform: a wrong password, a key that cannot be
    imported, and missing key material. *)
Lemma failed_unlock_session_witness :
  (snd (UNLOCK_ALMA_KEY (P := reference_platform) "Sesame2" example_saved
          (CONFIG.mk (Some "sk-test-12345") "NA")) <> ok_true
   /\ snd (tryAutoUnlockFromKEK (P := reference_platform) short_key
             CONFIG.initial) = false
   /\ snd (tryAutoUnlockFromKEK (P := reference_platform) example_set
             (CONFIG.mk (Some "sk-test-12345") "NA")) = false
   /\ key_material_present example_set = false)
  /\ fst (UNLOCK_ALMA_KEY (P := reference_platform) "Sesame2" example_saved
            (CONFIG.mk (Some "sk-test-12345") "NA"))
     = CONFIG.mk (Some "sk-test-12345") "NA"
  /\ unlocked (fst (tryAutoUnlockFromKEK (P := reference_platform) short_key
                      CONFIG.initial)) = false
  /\ fst (tryAutoUnlockFromKEK (P := reference_platform) example_set
            (CONFIG.mk (Some "sk-test-12345") "NA"))
     = CONFIG.mk (Some "sk-test-12345") "NA".
Proof.
  assert (Hfail :
    snd (UNLOCK_ALMA_KEY (P := reference_platform) "Sesame2" example_saved
           (CONFIG.mk (Some "sk-test-12345") "NA")) <> ok_true)
    by (vm_compute; discriminate).
  split; [repeat split; exact Hfail|].
  split; [|split].
  - exact (proj1 (failed_unlock_session (P := reference_platform) "Sesame2"
                    example_saved (CONFIG.mk (Some "sk-test-12345") "NA"))
             Hfail).
  - exact (proj2 (proj2 (proj2 (failed_unlock_session (P := reference_platform)
                    "" short_key CONFIG.initial) eq_refl)) eq_refl).
  - exact (proj1 (proj2 (failed_unlock_session (P := reference_platform)
                    "" example_set (CONFIG.mk (Some "sk-test-12345") "NA"))
                    eq_refl) eq_refl).
Defined.

(** C9 on the executable platform: a blank key field and the region
    ["EU"]. *)
Lemma save_region_only_witness :
  nonempty (trim "   ") = false
  /\ save_click (P := reference_platform) false "   " "EU" "" example_iv
       example_saved
     = (mkStorage None (ALMA_API_KEY_C example_saved)
          (ALMA_API_KEY_IV example_saved) (Some 13%Z) (Some 200000%Z)
          (ALMA_PW_SALT example_saved) (ALMA_KEK_B64 example_saved)
          (Some "EU"),
        setStatus "status" "Saved region." kind_ok).
Proof.
  split; [reflexivity|].
  pose proof (save_region_only (P := reference_platform) "   " "EU" ""
                example_iv example_saved eq_refl) as H.
  cbv zeta in H. destruct H as (H & _). 
  rewrite (surjective_pairing (save_click false "   " "EU" "" example_iv example_saved)).
  rewrite H. reflexivity.
Defined.

(** C10 on the executable platform: the key is stored with the length of its
    trimmed form. *)
Lemma save_length_field_witness :
  (List.length example_iv = 12
   /\ nonempty (trim " sk-test-12345 ") = true
   /\ succeeded (snd (save_click (P := reference_platform) false
                        " sk-test-12345 " "NA" "Sesame1" example_iv
                        example_set)) = true)
  /\ ALMA_API_KEY_LEN
       (fst (save_click (P := reference_platform) false " sk-test-12345 "
               "NA" "Sesame1" example_iv example_set))
     = Some 13%Z.
Proof.
  split; [repeat split|].
  exact (proj1
    (save_length_field (P := reference_platform) false " sk-test-12345 " "NA"
       "Sesame1" example_iv example_set eq_refl eq_refl eq_refl)).
Defined.

(** ** More of the options page and of the service worker *)

Section Session.

Context {P : Platform}.

Lemma ensureConfigLoaded_key (st : Storage) (cfg : CONFIG.t) :
  CONFIG.ALMA_API_KEY (ensureConfigLoaded st cfg) = CONFIG.ALMA_API_KEY cfg.
Proof.
  unfold ensureConfigLoaded.
  destruct (negb (unlocked cfg) || negb (nonempty (CONFIG.ALMA_REGION cfg)));
    reflexivity.
Qed.

Lemma ensureConfigLoaded_unlocked (st : Storage) (cfg : CONFIG.t) :
  unlocked (ensureConfigLoaded st cfg) = unlocked cfg.
Proof. unfold unlocked. now rewrite ensureConfigLoaded_key. Qed.

(** A configuration with a key and a region is already loaded. *)
Lemma ensureConfigLoaded_loaded (st : Storage) (cfg : CONFIG.t) :
  unlocked cfg = true -> nonempty (CONFIG.ALMA_REGION cfg) = true ->
  ensureConfigLoaded st cfg = cfg.
Proof. intros Hu Hr. unfold ensureConfigLoaded. now rewrite Hu, Hr. Qed.

Lemma tryAutoUnlockFromKEK_region (st : Storage) (cfg : CONFIG.t) :
  CONFIG.ALMA_REGION (fst (tryAutoUnlockFromKEK st cfg)) = CONFIG.ALMA_REGION cfg.
Proof.
  unfold tryAutoUnlockFromKEK.
  destruct (negb _ || negb _ || negb _); [reflexivity|].
  destruct (bind _ _); reflexivity.
Qed.

(** After an auto-unlock the flag returned and the state of the session
    agree, unless the stored plaintext is empty. *)
Lemma tryAutoUnlockFromKEK_false_locked (st : Storage) (cfg : CONFIG.t) :
  unlocked cfg = false ->
  snd (tryAutoUnlockFromKEK st cfg) = false ->
  unlocked (fst (tryAutoUnlockFromKEK st cfg)) = false.
Proof.
  intros Hl. unfold tryAutoUnlockFromKEK.
  destruct (negb _ || negb _ || negb _); [intros _; exact Hl|].
  destruct (bind _ _); cbn [fst snd]; [discriminate | reflexivity].
Qed.

Lemma unlock_if_locked_idem (st : Storage) (cfg : CONFIG.t) :
  unlocked (unlock_if_locked st cfg) = true ->
  unlock_if_locked st (unlock_if_locked st cfg) = unlock_if_locked st cfg.
Proof. intros H. unfold unlock_if_locked at 1. now rewrite H. Qed.

End Session.

Section Extras.

Context {P : Platform}.

Lemma change_of_same (v : option string) : change_of v v = None.
Proof. destruct v as [s|]; [cbn; now rewrite String.eqb_refl | reflexivity]. Qed.

(** The answers the [try] block of [UNLOCK_ALMA_KEY] can give. *)
Lemma unlock_verified_answers (pw : string) (st : Storage) (cfg cfg' : CONFIG.t)
    (r : Response) :
  unlock_verified pw st cfg = Some (cfg', r) ->
  r = ok_true \/ r = ok_false "Wrong password.".
Proof.
  unfold unlock_verified.
  destruct (ub64 (String_or_empty (ALMA_PW_SALT st))) as [salt|];
    cbn [bind]; [|discriminate].
  destruct (pbkdf2 _ salt _) as [raw|]; cbn [bind]; [|discriminate].
  destruct (negb _); [intros [= _ <-]; now right|].
  destruct (truthy_string (ALMA_API_KEY_C st)
            && truthy_string (ALMA_API_KEY_IV st));
    [|intros [= _ <-]; now left].
  destruct (ub64 (String_or_empty (ALMA_API_KEY_IV st))) as [iv|];
    cbn [bind]; [|discriminate].
  destruct (ub64 (String_or_empty (ALMA_API_KEY_C st))) as [ct|];
    cbn [bind]; [|discriminate].
  destruct (aes_gcm_decrypt raw iv ct); cbn [bind]; [|discriminate].
  intros [= _ <-]; now left.
Qed.

(** Whether an auto-unlock leaves a locked session unlocked depends on the
    storage only. *)
Lemma tryAutoUnlockFromKEK_locked_same (st : Storage) (c1 c2 : CONFIG.t) :
  unlocked c1 = false -> unlocked c2 = false ->
  unlocked (fst (tryAutoUnlockFromKEK st c1))
  = unlocked (fst (tryAutoUnlockFromKEK st c2)).
Proof.
  intros H1 H2. unfold tryAutoUnlockFromKEK.
  destruct (negb _ || negb _ || negb _); cbn [fst]; [congruence|].
  destruct (bind _ _); reflexivity.
Qed.

Lemma setPassword_click_failed (pw : string) (salt : list byte) (st : Storage) :
  succeeded (snd (setPassword_click pw salt st)) = false ->
  fst (setPassword_click pw salt st) = st.
Proof.
  unfold setPassword_click.
  destruct (negb (nonempty (trim pw))); [reflexivity|].
  destruct (_ && _ && _); [reflexivity|].
  destruct (pbkdf2 _ _ _); [discriminate | reflexivity].
Qed.

Lemma save_click_failed (d : bool) (apiKey region pw : string) (iv : list byte)
    (st : Storage) :
  succeeded (snd (save_click d apiKey region pw iv st)) = false ->
  fst (save_click d apiKey region pw iv st) = st.
Proof.
  unfold save_click. destruct d; [reflexivity|].
  destruct (negb (nonempty (trim apiKey))); [discriminate|].
  destruct (negb (nonempty (trim pw))); [reflexivity|].
  destruct (_ || _ || _); [reflexivity|].
  unfold save_encrypted.
  destruct (ALMA_PW_SALT st) as [salt64|]; cbn [bind]; [|reflexivity].
  destruct (ub64 salt64) as [s|]; cbn [bind]; [|reflexivity].
  destruct (pbkdf2 _ s _) as [raw|]; cbn [bind]; [|reflexivity].
  destruct (negb _); [reflexivity|].
  destruct (aes_gcm_encrypt _ _ _); cbn [bind]; [discriminate | reflexivity].
Qed.

(** X1.  A click handler of the options page that does not end on a success
    status has written nothing: [setPassword], [save] and [clear] return the
    storage they were given. *)
Theorem handlers_fail_without_writing (pw apiKey region : string)
    (salt iv : list byte) (d : bool) (st : Storage) :
  (succeeded (snd (setPassword_click pw salt st)) = false ->
   fst (setPassword_click pw salt st) = st)
  /\ (succeeded (snd (save_click d apiKey region pw iv st)) = false ->
      fst (save_click d apiKey region pw iv st) = st)
  /\ (succeeded (snd (clear_click d st)) = false ->
      fst (clear_click d st) = st).
Proof.
  split; [apply setPassword_click_failed|].
  split; [apply save_click_failed|].
  unfold clear_click. destruct d; [reflexivity | discriminate].
Qed.

(** X2.  The footprint of the three click handlers, whatever they are given:
    [save] never changes salt, iteration count, verifier or the plaintext
    entry; [setPassword] never changes ciphertext, nonce, length, region or
    the plaintext entry; [clear] never changes the region. *)
Theorem handlers_footprint (pw apiKey region : string) (salt iv : list byte)
    (d : bool) (st : Storage) :
  (let st' := fst (save_click d apiKey region pw iv st) in
   ALMA_PW_SALT st' = ALMA_PW_SALT st
   /\ ALMA_KDF_ITERS st' = ALMA_KDF_ITERS st
   /\ ALMA_KEK_B64 st' = ALMA_KEK_B64 st
   /\ ALMA_API_KEY st' = ALMA_API_KEY st)
  /\ (let st' := fst (setPassword_click pw salt st) in
      ALMA_API_KEY_C st' = ALMA_API_KEY_C st
      /\ ALMA_API_KEY_IV st' = ALMA_API_KEY_IV st
      /\ ALMA_API_KEY_LEN st' = ALMA_API_KEY_LEN st
      /\ ALMA_REGION st' = ALMA_REGION st
      /\ ALMA_API_KEY st' = ALMA_API_KEY st)
  /\ ALMA_REGION (fst (clear_click d st)) = ALMA_REGION st.
Proof.
  split; [|split].
  - destruct (succeeded (snd (save_click d apiKey region pw iv st))) eqn:E.
    + unfold save_click in *. destruct d; [discriminate|].
      destruct (negb (nonempty (trim apiKey))); [cbn; auto|].
      destruct (negb (nonempty (trim pw))); [discriminate|].
      destruct (_ || _ || _); [discriminate|].
      unfold save_encrypted in *.
      destruct (ALMA_PW_SALT st) as [salt64|]; cbn [bind] in *; [|discriminate].
      destruct (ub64 salt64) as [s|]; cbn [bind] in *; [|discriminate].
      destruct (pbkdf2 _ s _) as [raw|]; cbn [bind] in *; [|discriminate].
      destruct (negb _); [discriminate|].
      destruct (aes_gcm_encrypt _ _ _); cbn [bind] in *; [|discriminate].
      cbn. auto.
    + rewrite (save_click_failed _ _ _ _ _ _ E). cbv zeta. auto.
  - unfold setPassword_click.
    destruct (negb (nonempty (trim pw))); [cbn; auto|].
    destruct (_ && _ && _); [cbn; auto|].
    destruct (pbkdf2 _ _ _); cbn; auto.
  - unfold clear_click. destruct d; reflexivity.
Qed.

(** X3.  On an enabled card, with a complete password record, a save of a
    non-empty key under a password whose derived key is not the stored
    verifier is refused with ["Wrong password for encryption."] and writes
    nothing. *)
Theorem save_wrong_password (apiKey region pw : string) (iv salt raw : list byte)
    (st : Storage) :
  nonempty (trim apiKey) = true -> nonempty (trim pw) = true ->
  password_record_exists st = true ->
  ub64 (String_or_empty (ALMA_PW_SALT st)) = Some salt ->
  pbkdf2 (text_encode (trim pw)) salt (stored_iterations st) = Some raw ->
  ALMA_KEK_B64 st <> Some (u8ToB64u raw) ->
  save_click false apiKey region pw iv st
  = (st, setStatus "status" "Wrong password for encryption." kind_err).
Proof.
  intros HT Hpw Hrec Hs Hr Hk.
  apply password_record_exists_true in Hrec as (HK & HS & HI).
  unfold save_click. rewrite HT, Hpw, HK, HS, HI. cbn [negb orb].
  unfold save_encrypted. fold (stored_iterations st).
  destruct (ALMA_PW_SALT st) as [salt64|]; [|discriminate HS].
  cbn [String_or_empty] in Hs. cbn [bind]. rewrite Hs. cbn [bind].
  rewrite Hr. cbn [bind].
  destruct (ALMA_KEK_B64 st) as [k|]; [|discriminate HK].
  destruct (String.eqb_spec (u8ToB64u raw) k) as [E|]; [congruence|reflexivity].
Qed.

(** X4.  After a successful first-time setup on a storage without a
    credential record, the unlock button with the same password shows
    ["Unlocked."] and enables the settings card.  The key in memory is left
    as it was.  The rest of the configuration is touched by the listener's
    [ensureConfigLoaded] alone: an unlocked session with a region keeps its
    configuration, as does any session when no region is stored, and a
    locked session takes the non-empty region that storage holds. *)
Theorem setup_then_unlock_enables (pw : string) (salt : list byte)
    (st0 : Storage) (cfg : CONFIG.t) (d : bool) :
  List.length salt = 16 ->
  succeeded (snd (setPassword_click pw salt st0)) = true ->
  credential_record_exists st0 = false ->
  unlock_click d pw (fst (setPassword_click pw salt st0)) cfg
  = (ensureConfigLoaded st0 cfg, false,
     setStatus "lockStatus" "Unlocked." kind_ok)
  /\ CONFIG.ALMA_API_KEY (ensureConfigLoaded st0 cfg) = CONFIG.ALMA_API_KEY cfg
  /\ (unlocked cfg = true -> nonempty (CONFIG.ALMA_REGION cfg) = true ->
      ensureConfigLoaded st0 cfg = cfg)
  /\ (ALMA_REGION st0 = None -> ensureConfigLoaded st0 cfg = cfg)
  /\ (unlocked cfg = false ->
      forall r, ALMA_REGION st0 = Some r -> nonempty r = true ->
      CONFIG.ALMA_REGION (ensureConfigLoaded st0 cfg) = r).
Proof.
  intros Hsalt Hset Hcred.
  destruct (setPassword_click pw salt st0) as [st1 sh] eqn:E.
  destruct (setPassword_click_set pw salt st0 st1 sh E Hset)
    as (Hpw & _ & raw & Hraw & ->).
  cbn [fst]. split; [|split; [apply ensureConfigLoaded_key|split; [|split]]].
  - unfold unlock_click. rewrite Hpw. cbn [negb].
    erewrite UNLOCK_correct with (salt := salt) (raw := raw).
    + unfold credential_record_exists in *.
      cbn [ALMA_API_KEY_C ALMA_API_KEY_IV]. rewrite Hcred. reflexivity.
    + unfold password_record_exists.
      cbn [ALMA_KEK_B64 ALMA_PW_SALT ALMA_KDF_ITERS truthy_string truthy_number].
      rewrite (b64u_nonempty salt (length_nonempty salt 15 Hsalt)).
      rewrite (b64u_nonempty raw
                 (length_nonempty raw 31 (pbkdf2_length _ _ _ _ Hraw))).
      reflexivity.
    + cbn [ALMA_PW_SALT String_or_empty]. apply ub64_b64u.
    + exact Hraw.
    + reflexivity.
  - intros Hu Hr. unfold ensureConfigLoaded. now rewrite Hu, Hr.
  - intros Hnone. unfold ensureConfigLoaded, refreshConfig. rewrite Hnone.
    destruct cfg; now destruct (_ || _).
  - intros Hu r Hsome Hr. unfold ensureConfigLoaded, refreshConfig.
    rewrite Hu, Hsome, Hr. reflexivity.
Qed.

(** X5.  Clear does not lock the session.  After a clear on the enabled card,
    the change event and the [REFRESH_CONFIG] message, no encrypted key is
    reported; the key in memory is the one from before when storage held no
    plaintext [ALMA_API_KEY] entry, and [getUsableKey] on an unlocked session
    still returns it; only the removal of such an entry sets the key to
    [null]. *)
Theorem clear_keeps_session (st : Storage) (cfg : CONFIG.t) :
  let st' := fst (clear_click false st) in
  let cfg1 := storage_onChanged "local" (changes_between st st') cfg in
  let cfg2 := fst (onMessage Request.REFRESH_CONFIG st' cfg1) in
  snd (onMessage Request.HAS_ENCRYPTED_KEY st' cfg2) = reply_hasEncrypted false
  /\ (ALMA_API_KEY st = None ->
      CONFIG.ALMA_API_KEY cfg2 = CONFIG.ALMA_API_KEY cfg
      /\ (unlocked cfg = true ->
          snd (getUsableKey st' cfg2) = CONFIG.ALMA_API_KEY cfg))
  /\ (ALMA_API_KEY st <> None -> CONFIG.ALMA_API_KEY cfg2 = None).
Proof.
  cbv zeta. cbn [clear_click fst].
  split; [reflexivity|].
  assert (Hkey : forall c,
    CONFIG.ALMA_API_KEY
      (fst (onMessage Request.REFRESH_CONFIG
              (mkStorage None None None (ALMA_API_KEY_LEN st) None None None
                 (ALMA_REGION st)) c))
    = CONFIG.ALMA_API_KEY c).
  { intros c. cbn [onMessage fst refreshConfig CONFIG.ALMA_API_KEY].
    apply ensureConfigLoaded_key. }
  unfold changes_between. cbn [ALMA_API_KEY ALMA_REGION].
  rewrite change_of_same.
  split.
  - intros Hnone. rewrite Hnone. cbn [change_of storage_onChanged String.eqb
      Ascii.eqb Bool.eqb changes_ALMA_API_KEY changes_ALMA_REGION].
    split; [apply Hkey|].
    intros Hu. unfold getUsableKey.
    assert (Hu2 : unlocked
      (fst (onMessage Request.REFRESH_CONFIG
              (mkStorage None None None (ALMA_API_KEY_LEN st) None None None
                 (ALMA_REGION st)) cfg)) = true)
      by (unfold unlocked in *; now rewrite Hkey).
    rewrite Hu2. cbn [snd]. apply Hkey.
  - intros Hsome. destruct (ALMA_API_KEY st) as [v|]; [|congruence].
    cbn [change_of storage_onChanged String.eqb Ascii.eqb Bool.eqb
      changes_ALMA_API_KEY changes_ALMA_REGION newValue truthy_string].
    rewrite Hkey. reflexivity.
Qed.

(** X6.  Locking does not last while the key material is stored.  On a
    storage that holds the ciphertext, nonce and key bytes of a successful
    save, [LOCK_ALMA_KEY] empties the session, and the next [HAS_API_KEY],
    [REVEAL_ALMA_KEY] or [almaGet] unlocks it again without a password and
    gets the saved key. *)
Theorem lock_undone_by_auto_unlock (d : bool) (apiKey region pw : string)
    (iv : list byte) (st st' : Storage) (cfg : CONFIG.t) :
  List.length iv = 12 ->
  nonempty (trim apiKey) = true ->
  succeeded (snd (save_click d apiKey region pw iv st)) = true ->
  ALMA_API_KEY_C st' = ALMA_API_KEY_C (fst (save_click d apiKey region pw iv st)) ->
  ALMA_API_KEY_IV st' = ALMA_API_KEY_IV (fst (save_click d apiKey region pw iv st)) ->
  ALMA_KEK_B64 st' = ALMA_KEK_B64 (fst (save_click d apiKey region pw iv st)) ->
  let locked := fst (onMessage Request.LOCK_ALMA_KEY st' cfg) in
  unlocked locked = false
  /\ snd (onMessage Request.HAS_API_KEY st' locked) = reply_hasKey true
  /\ snd (onMessage Request.REVEAL_ALMA_KEY st' locked)
     = reply_key (trim apiKey)
  /\ snd (usable_key_or_throw st' locked) = inr (trim apiKey).
Proof.
  intros Hiv HT Hok HC HI HK locked.
  assert (Hauto : forall c, tryAutoUnlockFromKEK st' c
                  = (CONFIG.set_ALMA_API_KEY (Some (trim apiKey)) c, true))
    by (intros c; now apply tryAutoUnlockFromKEK_after_save
                        with (d := d) (region := region) (pw := pw) (iv := iv)
                             (st := st)).
  assert (Hl : unlocked locked = false) by reflexivity.
  assert (Hl2 : unlocked (ensureConfigLoaded st' locked) = false)
    by (now rewrite ensureConfigLoaded_unlocked).
  split; [exact Hl|].
  unfold onMessage, unlock_if_locked, usable_key_or_throw, getUsableKey.
  rewrite Hl, Hl2, !Hauto. cbn [fst snd unlocked CONFIG.set_ALMA_API_KEY
    CONFIG.ALMA_API_KEY truthy_string String_or_empty].
  rewrite HT. cbn [negb]. repeat split.
Qed.

(** X7.  Of the requests about the credential, only [UNLOCK_ALMA_KEY] and
    [LOCK_ALMA_KEY] can change the key of an unlocked session: every other
    handler leaves [CONFIG.ALMA_API_KEY] as it was and does not attempt an
    auto-unlock. *)
Theorem unlocked_session_frame (request : Request.t) (st : Storage)
    (cfg : CONFIG.t) :
  unlocked cfg = true ->
  (forall pw, request <> Request.UNLOCK_ALMA_KEY pw) ->
  request <> Request.LOCK_ALMA_KEY ->
  CONFIG.ALMA_API_KEY (fst (onMessage request st cfg))
  = CONFIG.ALMA_API_KEY cfg.
Proof.
  intros Hu Hnu Hnl.
  assert (Hu2 : unlocked (ensureConfigLoaded st cfg) = true)
    by (now rewrite ensureConfigLoaded_unlocked).
  destruct request as [| |pw| | |]; unfold onMessage, unlock_if_locked.
  - rewrite Hu2. apply ensureConfigLoaded_key.
  - apply ensureConfigLoaded_key.
  - exfalso. exact (Hnu pw eq_refl).
  - rewrite Hu2, Hu2. apply ensureConfigLoaded_key.
  - exfalso. exact (Hnl eq_refl).
  - apply ensureConfigLoaded_key.
Qed.

(** X8.  [HAS_API_KEY] and [REVEAL_ALMA_KEY] agree.  When [HAS_API_KEY]
    answers [true], the session holds a non-empty key, and a following
    [REVEAL_ALMA_KEY] and [getUsableKey] return that key and leave it in
    place; when it answers [false], a following [REVEAL_ALMA_KEY] answers
    ["Key is locked or not set."]. *)
Theorem has_key_then_reveal (st : Storage) (cfg : CONFIG.t) :
  let cfg1 := fst (onMessage Request.HAS_API_KEY st cfg) in
  (snd (onMessage Request.HAS_API_KEY st cfg) = reply_hasKey true ->
   exists k,
     nonempty k = true
     /\ CONFIG.ALMA_API_KEY cfg1 = Some k
     /\ snd (onMessage Request.REVEAL_ALMA_KEY st cfg1) = reply_key k
     /\ CONFIG.ALMA_API_KEY (fst (onMessage Request.REVEAL_ALMA_KEY st cfg1))
        = Some k
     /\ snd (getUsableKey st cfg1) = Some k)
  /\ (snd (onMessage Request.HAS_API_KEY st cfg) = reply_hasKey false ->
      snd (onMessage Request.REVEAL_ALMA_KEY st cfg1)
      = reply_error "Key is locked or not set.").
Proof.
  cbv zeta. cbn [onMessage fst snd].
  set (c0 := ensureConfigLoaded st cfg).
  set (c1 := unlock_if_locked st c0).
  destruct (unlocked c1) eqn:Hu1.
  - split; [intros _ | discriminate].
    assert (Hu2 : unlocked (ensureConfigLoaded st c1) = true)
      by (now rewrite ensureConfigLoaded_unlocked).
    assert (Hk : exists k, CONFIG.ALMA_API_KEY c1 = Some k /\ nonempty k = true).
    { unfold unlocked in Hu1.
      destruct (CONFIG.ALMA_API_KEY c1) as [k|]; [|discriminate].
      exists k. split; [reflexivity | exact Hu1]. }
    destruct Hk as (k & Ek & Hne).
    exists k. split; [exact Hne|]. split; [exact Ek|].
    assert (Hidem : unlock_if_locked st (ensureConfigLoaded st c1)
                    = ensureConfigLoaded st c1)
      by (unfold unlock_if_locked; now rewrite Hu2).
    rewrite Hidem, Hu2. cbn [fst snd].
    rewrite ensureConfigLoaded_key, Ek. cbn [String_or_empty].
    unfold getUsableKey. rewrite Hu1. cbn [snd]. repeat split. exact Ek.
  - split; [discriminate | intros _].
    assert (Hu2 : unlocked (ensureConfigLoaded st c1) = false)
      by (now rewrite ensureConfigLoaded_unlocked).
    unfold unlock_if_locked at 1 2. rewrite Hu2.
    assert (Hu0 : unlocked c0 = false).
    { destruct (unlocked c0) eqn:E; [|reflexivity].
      unfold c1, unlock_if_locked in Hu1. rewrite E in Hu1. congruence. }
    assert (Hsame : unlocked (fst (tryAutoUnlockFromKEK st (ensureConfigLoaded st c1)))
                    = false).
    { rewrite (tryAutoUnlockFromKEK_locked_same st _ c0 Hu2 Hu0).
      unfold c1, unlock_if_locked in Hu1. now rewrite Hu0 in Hu1. }
    rewrite Hsame. reflexivity.
Qed.

(** X9.  What [almaGet] and [almaPost] do before any request is made: they
    throw ["Alma key not available (locked/missing)."] with status 0 exactly
    when [getUsableKey] gives no non-empty key, and then the session is
    locked; otherwise the key they go on with is non-empty, is the one
    [getUsableKey] returned and is the one in [CONFIG].  The error
    ["Missing API key"] is never thrown. *)
Theorem usable_key_or_throw_spec (st : Storage) (cfg : CONFIG.t) :
  match snd (usable_key_or_throw st cfg) with
  | inl e =>
      e = mkKeyError "Alma key not available (locked/missing)." 0
            (Some "No plaintext key in memory")
      /\ truthy_string (snd (getUsableKey st cfg)) = false
      /\ unlocked (fst (usable_key_or_throw st cfg)) = false
  | inr k =>
      nonempty k = true
      /\ snd (getUsableKey st cfg) = Some k
      /\ CONFIG.ALMA_API_KEY (fst (usable_key_or_throw st cfg)) = Some k
  end.
Proof.
  unfold usable_key_or_throw, getUsableKey.
  destruct (unlocked cfg) eqn:Hu.
  - rewrite Hu. unfold unlocked in Hu.
    destruct (CONFIG.ALMA_API_KEY cfg) as [k|] eqn:Ek; [|discriminate].
    cbn [truthy_string] in *. rewrite Hu. cbn [negb fst snd String_or_empty].
    auto.
  - pose proof (tryAutoUnlockFromKEK_false_locked st cfg Hu) as Hf.
    destruct (tryAutoUnlockFromKEK st cfg) as [cfg' ok] eqn:E.
    cbn [fst snd] in Hf. destruct ok.
    + unfold unlocked.
      destruct (CONFIG.ALMA_API_KEY cfg') as [k|] eqn:Ek; cbn [truthy_string].
      * destruct (nonempty k) eqn:Hne; cbn [negb fst snd String_or_empty].
        -- rewrite Ek. auto.
        -- rewrite Ek. cbn [truthy_string]. auto.
      * cbn [negb fst snd]. rewrite Ek. auto.
    + cbn [truthy_string negb fst snd]. auto.
Qed.

(** A successful save, of the region alone or of a key, leaves the region
    field (or ["NA"]) in storage and does not touch the plaintext entry. *)
Lemma save_click_region (apiKey region pw : string) (iv : list byte)
    (st : Storage) :
  succeeded (snd (save_click false apiKey region pw iv st)) = true ->
  ALMA_REGION (fst (save_click false apiKey region pw iv st))
  = Some (if nonempty region then region else "NA")
  /\ ALMA_API_KEY (fst (save_click false apiKey region pw iv st))
     = ALMA_API_KEY st.
Proof.
  intros Hok. destruct (nonempty (trim apiKey)) eqn:HT.
  - destruct (save_click_saved false apiKey region pw iv st HT Hok)
      as (_ & salt64 & salt & raw & ct & _ & _ & _ & _ & _ & ->).
    split; reflexivity.
  - unfold save_click. rewrite HT. split; reflexivity.
Qed.

(** X10.  The region a successful save leaves in storage reaches the service
    worker: after the change event and the [REFRESH_CONFIG] message,
    [CONFIG.ALMA_REGION] is the region field (["NA"] when the field is empty)
    whatever it was before, the key in memory is untouched, and [almaBaseUrl]
    is the North America host exactly when that region is ["NA"]; every other
    value selects the Europe host. *)
Theorem region_selects_host (apiKey region pw : string) (iv : list byte)
    (st : Storage) (cfg : CONFIG.t) :
  succeeded (snd (save_click false apiKey region pw iv st)) = true ->
  let st' := fst (save_click false apiKey region pw iv st) in
  let cfg1 := storage_onChanged "local" (changes_between st st') cfg in
  let cfg2 := fst (onMessage Request.REFRESH_CONFIG st' cfg1) in
  let r := if nonempty region then region else "NA" in
  CONFIG.ALMA_REGION cfg2 = r
  /\ CONFIG.ALMA_API_KEY cfg2 = CONFIG.ALMA_API_KEY cfg
  /\ almaBaseUrl cfg2
     = if String.eqb r "NA" then
         "https://api-na.hosted.exlibrisgroup.com/almaws/v1"
       else "https://api-eu.hosted.exlibrisgroup.com/almaws/v1".
Proof.
  intros Hok. cbv zeta.
  destruct (save_click_region apiKey region pw iv st Hok) as [Hreg Hkey].
  set (st' := fst (save_click false apiKey region pw iv st)) in *.
  set (r := if nonempty region then region else "NA") in *.
  assert (Hr : nonempty r = true)
    by (unfold r; destruct (nonempty region) eqn:E; [exact E | reflexivity]).
  assert (H2 : forall c,
    CONFIG.ALMA_REGION (fst (onMessage Request.REFRESH_CONFIG st' c)) = r).
  { intros c. cbn [onMessage fst refreshConfig CONFIG.ALMA_REGION].
    rewrite Hreg, Hr. reflexivity. }
  split; [apply H2|]. split.
  - cbn [onMessage fst refreshConfig CONFIG.ALMA_API_KEY].
    rewrite ensureConfigLoaded_key. unfold changes_between.
    rewrite Hkey, change_of_same.
    cbn [storage_onChanged String.eqb Ascii.eqb Bool.eqb changes_ALMA_API_KEY
      changes_ALMA_REGION].
    destruct (change_of (ALMA_REGION st) (ALMA_REGION st')); reflexivity.
  - unfold almaBaseUrl. rewrite H2.
    destruct (String.eqb r "NA"); reflexivity.
Qed.

(** X11.  The popup locks its form exactly when [HAS_API_KEY] answers [false]
    and storage holds no ciphertext and nonce pair; with such a pair stored
    the form stays enabled whether or not the key can be decrypted. *)
Theorem popup_gate (st : Storage) (cfg : CONFIG.t) :
  (snd (checkApiKeyAndGate st cfg) = true <->
   snd (onMessage Request.HAS_API_KEY st cfg) = reply_hasKey false
   /\ credential_record_exists st = false)
  /\ CONFIG.ALMA_API_KEY (fst (checkApiKeyAndGate st cfg))
     = CONFIG.ALMA_API_KEY (fst (onMessage Request.HAS_API_KEY st cfg)).
Proof.
  unfold checkApiKeyAndGate.
  cbn [onMessage]. fold (credential_record_exists st).
  set (c1 := unlock_if_locked st (ensureConfigLoaded st cfg)).
  destruct (unlocked c1); cbn [fst snd].
  - split; [|reflexivity]. split; [discriminate | intros [H _]; discriminate H].
  - destruct (credential_record_exists st); cbn [fst snd].
    + split; [|apply ensureConfigLoaded_key].
      split; [discriminate | intros [_ H]; discriminate H].
    + split; [|apply ensureConfigLoaded_key]. split; auto.
Qed.

(** X12.  The two setup errors of [UNLOCK_ALMA_KEY]: it answers
    ["No password set. Click Set Password first."] exactly when none of
    verifier, salt and iteration count is stored, and
    ["Password setting incomplete. Click Set Password to repair."] exactly
    when the verifier is stored and the salt or the iteration count is
    not. *)
Theorem unlock_error_kinds (pw : string) (st : Storage) (cfg : CONFIG.t) :
  (snd (UNLOCK_ALMA_KEY pw st cfg)
   = ok_false "No password set. Click Set Password first."
   <-> truthy_string (ALMA_KEK_B64 st) = false
       /\ truthy_string (ALMA_PW_SALT st) = false
       /\ truthy_number (ALMA_KDF_ITERS st) = false)
  /\ (snd (UNLOCK_ALMA_KEY pw st cfg)
      = ok_false "Password setting incomplete. Click Set Password to repair."
      <-> truthy_string (ALMA_KEK_B64 st) = true
          /\ (truthy_string (ALMA_PW_SALT st) = false
              \/ truthy_number (ALMA_KDF_ITERS st) = false)).
Proof.
  unfold UNLOCK_ALMA_KEY.
  assert (Hv : forall msg,
    msg <> "Wrong password." -> msg <> "Unlock failed." ->
    snd match unlock_verified pw st cfg with
        | Some r => r
        | None => (cfg, ok_false "Unlock failed.")
        end <> ok_false msg).
  { intros msg H1 H2.
    destruct (unlock_verified pw st cfg) as [[cfg' r]|] eqn:E; cbn [snd].
    - destruct (unlock_verified_answers pw st cfg cfg' r E) as [-> | ->];
        congruence.
    - congruence. }
  destruct (truthy_string (ALMA_KEK_B64 st)),
    (truthy_string (ALMA_PW_SALT st)), (truthy_number (ALMA_KDF_ITERS st));
    cbn [negb andb orb snd];
    (split;
     (split;
      [ first [ intros H; discriminate H
              | intros H; exfalso; revert H; apply Hv; discriminate
              | intros _; repeat split; auto ]
      | first [ intros _; reflexivity
              | intros (H1 & H2 & H3); discriminate
              | intros (H1 & [H2 | H2]); discriminate ] ])).
Qed.

End Extras.

(** X3 on the executable platform: a save under ["Sesame2"] after a setup
    with ["Sesame1"]. *)
Lemma save_wrong_password_witness :
  (nonempty (trim "sk-test-12345") = true /\ nonempty (trim "Sesame2") = true
   /\ password_record_exists example_set = true
   /\ ub64 (String_or_empty (ALMA_PW_SALT example_set)) = Some example_salt)
  /\ save_click (P := reference_platform) false "sk-test-12345" "NA" "Sesame2"
       example_iv example_set
     = (example_set,
        setStatus "status" "Wrong password for encryption." kind_err).
Proof.
  split; [repeat split|].
  apply (save_wrong_password (P := reference_platform) "sk-test-12345" "NA"
           "Sesame2" example_iv example_salt
           (firstn 32 (list_byte_of_string "Sesame2" ++ example_salt
                       ++ repeat x00 32)));
    try reflexivity.
  vm_compute. discriminate.
Defined.

(** A storage that holds a region and nothing else. *)
Definition region_only : Storage :=
  mkStorage None None None None None None None (Some "EU").

(** X4 on the executable platform: setup with ["Sesame1"] on a storage that
    holds the region ["EU"], then the unlock button on a fresh service
    worker, whose region becomes ["EU"]. *)
Lemma setup_then_unlock_enables_witness :
  (List.length example_salt = 16
   /\ succeeded (snd (setPassword_click (P := reference_platform) "Sesame1"
                        example_salt region_only)) = true
   /\ credential_record_exists region_only = false)
  /\ unlock_click (P := reference_platform) true "Sesame1"
       (fst (setPassword_click (P := reference_platform) "Sesame1"
               example_salt region_only))
       CONFIG.initial
     = (CONFIG.mk None "EU", false,
        setStatus "lockStatus" "Unlocked." kind_ok).
Proof.
  split; [repeat split|].
  exact (proj1 (setup_then_unlock_enables (P := reference_platform) "Sesame1"
                  example_salt region_only CONFIG.initial true
                  eq_refl eq_refl eq_refl)).
Defined.

(** X6 on the executable platform: lock, then ask for the key. *)
Lemma lock_undone_by_auto_unlock_witness :
  (List.length example_iv = 12
   /\ nonempty (trim "sk-test-12345") = true
   /\ succeeded (snd (save_click (P := reference_platform) false
                        "sk-test-12345" "NA" "Sesame1" example_iv
                        example_set)) = true)
  /\ snd (onMessage (P := reference_platform) Request.REVEAL_ALMA_KEY
            example_saved
            (fst (onMessage (P := reference_platform) Request.LOCK_ALMA_KEY
                    example_saved (CONFIG.mk (Some "sk-test-12345") "NA"))))
     = reply_key "sk-test-12345".
Proof.
  split; [repeat split|].
  exact (proj1 (proj2 (proj2
    (lock_undone_by_auto_unlock (P := reference_platform) false
       "sk-test-12345" "NA" "Sesame1" example_iv example_set example_saved
       (CONFIG.mk (Some "sk-test-12345") "NA")
       eq_refl eq_refl eq_refl eq_refl eq_refl eq_refl)))).
Defined.

(** X7 on the executable platform: [REVEAL_ALMA_KEY] on an unlocked session
    over a storage whose key bytes cannot be imported. *)
Lemma unlocked_session_frame_witness :
  unlocked (CONFIG.mk (Some "sk-test-12345") "NA") = true
  /\ CONFIG.ALMA_API_KEY
       (fst (onMessage (P := reference_platform) Request.REVEAL_ALMA_KEY
               short_key (CONFIG.mk (Some "sk-test-12345") "NA")))
     = Some "sk-test-12345".
Proof.
  split; [reflexivity|].
  apply (unlocked_session_frame (P := reference_platform)
           Request.REVEAL_ALMA_KEY short_key
           (CONFIG.mk (Some "sk-test-12345") "NA") eq_refl);
    [intros pw|]; discriminate.
Defined.

(** X10 on the executable platform: a region-only save of ["EU"] moves a
    service worker configured for ["NA"] to the Europe host. *)
Lemma region_selects_host_witness :
  succeeded (snd (save_click (P := reference_platform) false "" "EU" ""
                    example_iv example_saved)) = true
  /\ almaBaseUrl
       (fst (onMessage (P := reference_platform) Request.REFRESH_CONFIG
               (fst (save_click (P := reference_platform) false "" "EU" ""
                       example_iv example_saved))
               (storage_onChanged "local"
                  (changes_between example_saved
                     (fst (save_click (P := reference_platform) false "" "EU"
                             "" example_iv example_saved)))
                  CONFIG.initial)))
     = "https://api-eu.hosted.exlibrisgroup.com/almaws/v1".
Proof.
  split; [reflexivity|].
  exact (proj2 (proj2
    (region_selects_host (P := reference_platform) "" "EU" "" example_iv
       example_saved CONFIG.initial eq_refl))).
Defined.

(** ** More on the base64url helpers *)

(** The characters of the URL-safe alphabet: letters, digits, [-] and [_]. *)
Definition is_url_safe (c : ascii) : bool :=
  let n := nat_of_ascii c in
  (Nat.leb 65 n && Nat.leb n 90) || (Nat.leb 97 n && Nat.leb n 122)
  || (Nat.leb 48 n && Nat.leb n 57) || Nat.eqb n 45 || Nat.eqb n 95.

(** The characters [ub64] can take: both alphabets, [=] and the white space
    [atob] skips. *)
Definition is_ub64_char (c : ascii) : bool :=
  is_url_safe c || Ascii.eqb c "+" || Ascii.eqb c "/"
  || Base64.is_eq_sign c || Base64.is_ascii_whitespace c.

Module Base64More.
Import Base64 Base64Url Base64Facts.

Local Ltac Zify.zify_post_hook ::= Z.to_euclidean_division_equations.

Lemma url_safe_sextet (s : sextet) :
  is_url_safe (subst_char "/" "_" (subst_char "+" "-" (encode_sextet s))) = true.
Proof.
  destruct s as [[[[[b5 b4] b3] b2] b1] b0].
  destruct b5, b4, b3, b2, b1, b0; vm_compute; reflexivity.
Qed.

Lemma url_safe_body (l : list ascii) :
  Forall (fun c => is_url_safe c = true)
    (map (subst_char "/" "_") (map (subst_char "+" "-") (encode_body l))).
Proof.
  induction l as [|a|a b|a b c r IH] using list_ind3.
  - constructor.
  - destruct a as [a0 a1 a2 a3 a4 a5 a6 a7].
    repeat constructor; apply url_safe_sextet.
  - destruct a as [a0 a1 a2 a3 a4 a5 a6 a7], b as [b0 b1 b2 b3 b4 b5 b6 b7].
    repeat constructor; apply url_safe_sextet.
  - destruct a as [a0 a1 a2 a3 a4 a5 a6 a7], b as [b0 b1 b2 b3 b4 b5 b6 b7],
      c as [c0 c1 c2 c3 c4 c5 c6 c7].
    cbn [encode_body encode3 app map].
    repeat (constructor; [apply url_safe_sextet|]). exact IH.
Qed.

Lemma length_encode_body (l : list ascii) :
  List.length (encode_body l) = (4 * List.length l + 2) / 3.
Proof.
  induction l as [|a|a b|a b c r IH] using list_ind3.
  - reflexivity.
  - destruct a. reflexivity.
  - destruct a, b. reflexivity.
  - destruct a, b, c. cbn [encode_body encode3 app List.length].
    rewrite IH. lia.
Qed.

(** The characters of [btoa]'s output are left alone by the substitution
    [ub64] starts with. *)
Lemma unsubst_padded (l : list ascii) :
  map (subst_char "_" "/") (map (subst_char "-" "+") (pad4 (encode_body l)))
  = pad4 (encode_body l).
Proof.
  rewrite map_map. apply map_fixed.
  destruct (pad4_repeat (encode_body l) (length_body l)) as (k & _ & -> & _).
  apply Forall_app. split.
  - apply good_weaken with (2 := good_body l).
    intros c Hc. unfold good in Hc. apply andb_prop in Hc as [Hc Hr].
    do 2 apply andb_prop in Hc as [Hc _]. apply negb_true_iff in Hc.
    apply Ascii.eqb_eq in Hr.
    unfold subst_char in *.
    destruct (Ascii.eqb_spec c "-") as [->|]; [discriminate Hr|].
    destruct (Ascii.eqb_spec c "_") as [->|]; [discriminate Hr | reflexivity].
  - apply Forall_forall. intros c Hc. apply repeat_spec in Hc. now subst.
Qed.

Lemma pad4_padded (l : list ascii) :
  pad4 (pad4 (encode_body l)) = pad4 (encode_body l).
Proof.
  destruct (pad4_repeat (encode_body l) (length_body l)) as (k & _ & E & Hm).
  rewrite E. unfold pad4 at 1. rewrite length_app, repeat_length, Hm.
  reflexivity.
Qed.

Lemma forgiving_decode_padded (l : list ascii) :
  forgiving_decode (pad4 (encode_body l)) = Some l.
Proof.
  pose proof (decode_encode_url l) as H. unfold decode_url in H.
  rewrite encode_url_body, !map_map in H.
  rewrite map_fixed in H; [exact H|].
  apply good_weaken with (2 := good_body l).
  intros c Hc. unfold good in Hc. apply andb_prop in Hc as [_ Hc].
  now apply Ascii.eqb_eq in Hc.
Qed.

(** A character outside the alphabet makes the decoder fail wherever it
    stands. *)
Lemma decode_body_invalid (c : ascii) :
  decode_char c = None ->
  forall n l, List.length l <= n -> In c l -> decode_body l = None.
Proof.
  intros Hc. induction n as [|n IH]; intros l Hn Hin.
  - destruct l; [contradiction | cbn in Hn; lia].
  - destruct l as [|c1 [|c2 [|c3 [|c4 r]]]].
    + contradiction.
    + reflexivity.
    + cbn [decode_body]. destruct Hin as [<-|[<-|[]]].
      * now rewrite Hc.
      * destruct (decode_char c1); cbn [bind]; [now rewrite Hc | reflexivity].
    + cbn [decode_body]. destruct Hin as [<-|[<-|[<-|[]]]].
      * now rewrite Hc.
      * destruct (decode_char c1); cbn [bind]; [now rewrite Hc | reflexivity].
      * destruct (decode_char c1); cbn [bind]; [|reflexivity].
        destruct (decode_char c2); cbn [bind]; [now rewrite Hc | reflexivity].
    + cbn [decode_body].
      destruct (decode_char c1) eqn:E1; cbn [bind]; [|reflexivity].
      destruct (decode_char c2) eqn:E2; cbn [bind]; [|reflexivity].
      destruct (decode_char c3) eqn:E3; cbn [bind]; [|reflexivity].
      destruct (decode_char c4) eqn:E4; cbn [bind]; [|reflexivity].
      rewrite (IH r); [reflexivity | cbn in Hn; lia |].
      destruct Hin as [<-|[<-|[<-|[<-|Hin]]]]; congruence.
Qed.

Lemma strip_padding_keeps (c : ascii) (l : list ascii) :
  is_eq_sign c = false -> In c l -> In c (strip_padding l).
Proof.
  intros Hc Hin. unfold strip_padding.
  destruct (Nat.eqb (List.length l mod 4) 0); [|exact Hin].
  destruct (rev l) as [|c1 [|c2 r]] eqn:E; try exact Hin.
  assert (Hr : In c (c1 :: c2 :: r)) by (rewrite <- E; now apply in_rev in Hin).
  destruct (is_eq_sign c1) eqn:E1; [|exact Hin].
  destruct Hr as [<-|Hr]; [congruence|].
  destruct (is_eq_sign c2) eqn:E2.
  - destruct Hr as [<-|Hr]; [congruence|]. now apply in_rev in Hr.
  - now apply in_rev in Hr.
Qed.

Lemma pad4_keeps (c : ascii) (l : list ascii) : In c l -> In c (pad4 l).
Proof.
  intros H. unfold pad4.
  destruct (List.length l mod 4) as [|[|[|n]]]; [exact H | | |];
    apply in_or_app; now left.
Qed.

Lemma not_ub64_char (c : ascii) :
  is_ub64_char c = false ->
  subst_char "_" "/" (subst_char "-" "+" c) = c
  /\ decode_char c = None /\ is_eq_sign c = false
  /\ is_ascii_whitespace c = false.
Proof.
  destruct c as [[] [] [] [] [] [] [] []]; vm_compute; intros H;
    first [discriminate H | repeat split].
Qed.

End Base64More.

Lemma length_string_of_list_ascii (l : list ascii) :
  String.length (string_of_list_ascii l) = List.length l.
Proof. induction l as [|c l IH]; [reflexivity | cbn; now rewrite IH]. Qed.

Lemma ub64_invalid (s : string) (c : ascii) :
  In c (list_ascii_of_string s) -> is_ub64_char c = false -> ub64 s = None.
Proof.
  intros Hin Hc.
  destruct (Base64More.not_ub64_char c Hc) as (Hfix & Hdec & Heq & Hws).
  rewrite ub64_chars. unfold Base64Url.decode_url, Base64.forgiving_decode.
  rewrite (Base64More.decode_body_invalid c Hdec
             (List.length (Base64.strip_padding
                (filter (fun c0 => negb (Base64.is_ascii_whitespace c0))
                   (Base64.pad4
                      (map (subst_char "_" "/")
                         (map (subst_char "-" "+") (list_ascii_of_string s))))))));
    [reflexivity | apply Nat.le_refl |].
  apply Base64More.strip_padding_keeps; [exact Heq|].
  apply filter_In. split; [|now rewrite Hws].
  apply Base64More.pad4_keeps. rewrite map_map, <- Hfix.
  apply (in_map (fun x => subst_char "_" "/" (subst_char "-" "+" x))), Hin.
Qed.

Section HelperExtras.

Context {P : Platform}.

(** X13.  [ub64] undoes [b64u] on every byte sequence, it also decodes the
    standard padded form [btoa] gives for the same bytes, and [b64u] is
    injective: two byte sequences with the same encoding are equal. *)
Theorem b64u_roundtrip (bytes : list byte) :
  ub64 (b64u bytes) = Some bytes
  /\ ub64 (Base64.btoa (string_of_list_byte bytes)) = Some bytes
  /\ (forall other, b64u other = b64u bytes -> other = bytes).
Proof.
  split; [apply ub64_b64u|]. split; [|intros other; apply b64u_inj].
  rewrite ub64_chars. unfold Base64.btoa, Base64Url.decode_url.
  rewrite list_ascii_of_string_of_list_ascii.
  rewrite Base64More.unsubst_padded, Base64More.pad4_padded.
  rewrite Base64More.forgiving_decode_padded. cbn [option_map].
  unfold string_of_list_byte. rewrite list_ascii_of_string_of_list_ascii.
  rewrite map_map. f_equal.
  rewrite <- (map_id bytes) at 2. apply map_ext, byte_of_ascii_of_byte.
Qed.

(** X14.  The output of [b64u] is made of letters, digits, [-] and [_] only
    (no [+], [/] or padding), and for [n] bytes it has [(4n + 2) / 3]
    characters. *)
Theorem b64u_alphabet_and_length (bytes : list byte) :
  forallb is_url_safe (list_ascii_of_string (b64u bytes)) = true
  /\ String.length (b64u bytes) = (4 * List.length bytes + 2) / 3.
Proof.
  rewrite b64u_chars, list_ascii_of_string_of_list_ascii,
    length_string_of_list_ascii, Base64Facts.encode_url_body.
  split.
  - apply forallb_forall. apply Forall_forall, Base64More.url_safe_body.
  - now rewrite !length_map, Base64More.length_encode_body, length_map.
Qed.

(** X15.  [ub64] throws on every string that holds a character outside the
    two base64 alphabets, [=] and ASCII white space, wherever it stands. *)
Theorem ub64_rejects (s : string) :
  existsb (fun c => negb (is_ub64_char c)) (list_ascii_of_string s) = true ->
  ub64 s = None.
Proof.
  intros H. apply existsb_exists in H as (c & Hin & Hc).
  apply negb_true_iff in Hc. exact (ub64_invalid s c Hin Hc).
Qed.

(** X16.  A stored salt with a character [ub64] does not take gives named
    errors: with the three password fields present, [UNLOCK_ALMA_KEY]
    answers ["Unlock failed."] and leaves the session as it was, and a save
    of a non-empty key answers ["Save failed. See console."] and writes
    nothing. *)
Theorem corrupted_salt_errors (pw apiKey region : string) (iv : list byte)
    (st : Storage) (cfg : CONFIG.t) :
  password_record_exists st = true ->
  existsb (fun c => negb (is_ub64_char c))
    (list_ascii_of_string (String_or_empty (ALMA_PW_SALT st))) = true ->
  UNLOCK_ALMA_KEY pw st cfg = (cfg, ok_false "Unlock failed.")
  /\ (nonempty (trim apiKey) = true -> nonempty (trim pw) = true ->
      save_click false apiKey region pw iv st
      = (st, setStatus "status" "Save failed. See console." kind_err)).
Proof.
  intros Hrec Hbad.
  apply existsb_exists in Hbad as (c & Hin & Hc). apply negb_true_iff in Hc.
  pose proof (ub64_invalid _ c Hin Hc) as Hub.
  split.
  - rewrite UNLOCK_complete by exact Hrec. unfold unlock_verified.
    rewrite Hub. reflexivity.
  - intros HT Hpw.
    apply password_record_exists_true in Hrec as (HK & HS & HI).
    unfold save_click. rewrite HT, Hpw, HK, HS, HI. cbn [negb orb].
    unfold save_encrypted.
    destruct (ALMA_PW_SALT st) as [salt64|]; [|discriminate HS].
    cbn [String_or_empty] in Hub. cbn [bind]. rewrite Hub. reflexivity.
Qed.

End HelperExtras.

(** X15 on a salt with an exclamation mark. *)
Lemma ub64_rejects_witness :
  existsb (fun c => negb (is_ub64_char c)) (list_ascii_of_string "MDEy!zQ1")
  = true
  /\ ub64 "MDEy!zQ1" = None.
Proof.
  split; [reflexivity|]. exact (ub64_rejects "MDEy!zQ1" eq_refl).
Defined.

(** The storage of the first example with a salt that does not decode. *)
Definition corrupted_salt : Storage :=
  mkStorage None None None None (Some 200000%Z) (Some "MDEy!zQ1")
    (ALMA_KEK_B64 example_set) None.

(** X16 on the executable platform. *)
Lemma corrupted_salt_errors_witness :
  password_record_exists corrupted_salt = true
  /\ UNLOCK_ALMA_KEY (P := reference_platform) "Sesame1" corrupted_salt
       CONFIG.initial
     = (CONFIG.initial, ok_false "Unlock failed.").
Proof.
  split; [reflexivity|].
  exact (proj1 (corrupted_salt_errors (P := reference_platform) "Sesame1"
                  "sk-test-12345" "NA" example_iv corrupted_salt
                  CONFIG.initial eq_refl eq_refl)).
Defined.

(** ** The vendor queue *)

Section VendorFacts.

Context {Item : Type} (item_truthy : Item -> bool).

Lemma advance_within (k : nat) :
  forall (q : list Item) (v : string),
    k < List.length q -> advance k (mkVendor q v) = mkVendor (skipn k q) v.
Proof.
  induction k as [|k IH]; intros q v Hk; [reflexivity|].
  destruct q as [|x [|y r]]; cbn in Hk; [lia | lia |].
  cbn [advance ADVANCE_VENDOR_PREFILL VENDOR_QUEUE VENDOR_VENDOR fst].
  rewrite IH by (cbn; lia). reflexivity.
Qed.

Lemma advance_empty (k : nat) (v : string) :
  0 < k -> advance k (mkVendor (@nil Item) v) = mkVendor [] "".
Proof.
  intros Hk. destruct k as [|k]; [lia|]. clear Hk.
  cbn [advance ADVANCE_VENDOR_PREFILL VENDOR_QUEUE VENDOR_VENDOR fst].
  induction k as [|k IH]; [reflexivity | exact IH].
Qed.

Lemma advance_beyond (k : nat) :
  forall (q : list Item) (v : string),
    0 < k -> List.length q <= k -> advance k (mkVendor q v) = mkVendor [] "".
Proof.
  induction k as [|k IH]; intros q v Hk Hq; [lia|].
  destruct q as [|x [|y r]].
  - now apply advance_empty.
  - cbn [advance ADVANCE_VENDOR_PREFILL VENDOR_QUEUE VENDOR_VENDOR fst].
    destruct k; [reflexivity | apply advance_empty; lia].
  - cbn [advance ADVANCE_VENDOR_PREFILL VENDOR_QUEUE VENDOR_VENDOR fst].
    apply IH; cbn in *; lia.
Qed.

(** X17.  The queue hands out the scraped items in order.  After
    [VENDOR_PREFILL] with an array of truthy items and [k] advances, [k] less
    than the number of items, [GET_VENDOR_PREFILL] returns the vendor and
    item number [k] and changes nothing; the next advance reports the
    number of items after it and opens the popup exactly when one is left. *)
Theorem queue_fifo (vendor : string) (items : list Item) (s0 : Vendor)
    (k : nat) :
  Forall (fun x => item_truthy x = true) items ->
  k < List.length items ->
  let s := advance k (fst (fst (VENDOR_PREFILL vendor (Some items) s0))) in
  VENDOR_QUEUE s = skipn k items
  /\ VENDOR_VENDOR s = vendor
  /\ (exists x, nth_error items k = Some x
                /\ GET_VENDOR_PREFILL item_truthy s = (s, Some (vendor, [x])))
  /\ snd (fst (ADVANCE_VENDOR_PREFILL s)) = List.length items - S k
  /\ snd (ADVANCE_VENDOR_PREFILL s) = Nat.ltb (S k) (List.length items).
Proof.
  intros Hall Hk. cbv zeta. cbn [VENDOR_PREFILL fst].
  rewrite advance_within by exact Hk.
  cbn [VENDOR_QUEUE VENDOR_VENDOR].
  split; [reflexivity|]. split; [reflexivity|].
  destruct (skipn k items) as [|x r] eqn:E.
  { apply (f_equal (@List.length Item)) in E. rewrite length_skipn in E.
    cbn in E. lia. }
  assert (Hx : nth_error items k = Some x).
  { rewrite <- (firstn_skipn k items) at 1.
    rewrite nth_error_app2 by (rewrite length_firstn; lia).
    rewrite length_firstn, Nat.min_l by lia.
    rewrite Nat.sub_diag, E. reflexivity. }
  assert (Hr : List.length r = List.length items - S k).
  { apply (f_equal (@List.length Item)) in E. rewrite length_skipn in E.
    cbn in E. lia. }
  split; [|split].
  - exists x. split; [exact Hx|].
    unfold GET_VENDOR_PREFILL. cbn [VENDOR_QUEUE VENDOR_VENDOR].
    rewrite Forall_forall in Hall.
    rewrite (Hall x (nth_error_In _ _ Hx)). reflexivity.
  - cbn [ADVANCE_VENDOR_PREFILL VENDOR_QUEUE fst snd]. exact Hr.
  - cbn [ADVANCE_VENDOR_PREFILL VENDOR_QUEUE fst snd]. rewrite Hr.
    destruct (Nat.ltb_spec 0 (List.length items - S k)),
      (Nat.ltb_spec (S k) (List.length items)); try reflexivity; lia.
Qed.

(** X18.  Once every item has been advanced over, the queue is empty and the
    vendor flag is cleared: [GET_VENDOR_PREFILL] answers [null], a further
    advance reports 0 and opens no popup.  The flag is also cleared by a
    [GET_VENDOR_PREFILL] on a queue that was filled with no items. *)
Theorem queue_drained (vendor : string) (items : list Item) (s0 : Vendor)
    (k : nat) :
  List.length items <= k ->
  let s := advance k (fst (fst (VENDOR_PREFILL vendor (Some items) s0))) in
  GET_VENDOR_PREFILL item_truthy s = (mkVendor [] "", None)
  /\ ADVANCE_VENDOR_PREFILL s = (mkVendor [] "", 0, false)
  /\ (0 < k -> s = mkVendor [] "").
Proof.
  intros Hk. cbv zeta. cbn [VENDOR_PREFILL fst].
  destruct k as [|k].
  - destruct items; [|cbn in Hk; lia]. cbn. repeat split. intros H; lia.
  - rewrite advance_beyond by lia. cbn. repeat split.
Qed.

End VendorFacts.

(** X17 on a cart of three titles: after one advance the second title is
    served. *)
Lemma queue_fifo_witness :
  (Forall (fun x => negb (String.eqb x "") = true) ["Alpha"; "Beta"; "Gamma"]
   /\ 1 < List.length ["Alpha"; "Beta"; "Gamma"])
  /\ GET_VENDOR_PREFILL (fun x => negb (String.eqb x ""))
       (advance 1
          (fst (fst (VENDOR_PREFILL "KANOPY" (Some ["Alpha"; "Beta"; "Gamma"])
                       (mkVendor [] "")))))
     = (mkVendor ["Beta"; "Gamma"] "KANOPY", Some ("KANOPY", ["Beta"])).
Proof.
  assert (Hall : Forall (fun x => negb (String.eqb x "") = true)
                   ["Alpha"; "Beta"; "Gamma"])
    by (repeat constructor).
  split; [split; [exact Hall | cbn; lia]|].
  destruct (queue_fifo (fun x => negb (String.eqb x "")) "KANOPY"
              ["Alpha"; "Beta"; "Gamma"] (mkVendor [] "") 1 Hall
              (le_S 2 2 (le_n 2)))
    as (_ & _ & (x & Hx & Hget) & _).
  injection Hx as <-. exact Hget.
Defined.

(** X18 on the same cart after three advances. *)
Lemma queue_drained_witness :
  List.length ["Alpha"; "Beta"; "Gamma"] <= 3
  /\ GET_VENDOR_PREFILL (fun x => negb (String.eqb x ""))
       (advance 3
          (fst (fst (VENDOR_PREFILL "KANOPY" (Some ["Alpha"; "Beta"; "Gamma"])
                       (mkVendor [] "")))))
     = (mkVendor [] "", None).
Proof.
  split; [cbn; lia|].
  exact (proj1 (queue_drained (fun x => negb (String.eqb x "")) "KANOPY"
                  ["Alpha"; "Beta"; "Gamma"] (mkVendor [] "") 3
                  (le_n 3))).
Defined.

(** ** Paged listing *)

Section Paging.

Lemma firstn_plus {A : Type} (n m : nat) (l : list A) :
  firstn (n + m) l = firstn n l ++ firstn m (skipn n l).
Proof.
  revert l. induction n as [|n IH]; intros l; [reflexivity|].
  destruct l as [|x l]; [cbn; now destruct m|].
  cbn. now rewrite IH.
Qed.

(** A server that pages the list [all]: the response to [limit] and [offset]
    holds, under one of the paths, the [limit] items from [offset] on. *)
Definition serves (almaGet : nat -> nat -> option JSON)
    (arrayPaths : list (list string)) (all : list JSON) : Prop :=
  forall limit offset,
    exists page,
      almaGet limit offset = Some page
      /\ find_chunk arrayPaths page = Some (firstn limit (skipn offset all)).

Lemma almaGetAll_from_serves (almaGet : nat -> nat -> option JSON)
    (arrayPaths : list (list string)) (all : list JSON) (pageSize : nat) :
  serves almaGet arrayPaths all -> 0 < pageSize ->
  forall fuel offset,
    List.length all - offset < fuel * pageSize ->
    almaGetAll_from fuel almaGet arrayPaths pageSize offset (firstn offset all)
    = Returned all.
Proof.
  intros Hs Hp. induction fuel as [|fuel IH]; intros offset Hf; [cbn in Hf; lia|].
  cbn [almaGetAll_from].
  destruct (Hs pageSize offset) as (page & -> & ->).
  pose proof (length_firstn pageSize (skipn offset all)) as Hlen.
  rewrite length_skipn in Hlen.
  destruct (Nat.ltb_spec (List.length (firstn pageSize (skipn offset all))) pageSize)
    as [Hlt|Hge].
  - rewrite (@firstn_all2 _ pageSize (skipn offset all))
      by (rewrite length_skipn; lia).
    now rewrite firstn_skipn.
  - rewrite <- firstn_plus. apply IH. cbn in Hf. lia.
Qed.

(** X19.  Against a server that pages a list by [limit] and [offset],
    [almaGetAll] with a positive page size returns the whole list, in order
    and without repeats, whatever its length (a multiple of the page size
    included), once it is given more requests than the list has full
    pages. *)
Theorem almaGetAll_collects (almaGet : nat -> nat -> option JSON)
    (arrayPaths : list (list string)) (all : list JSON) (pageSize fuel : nat) :
  serves almaGet arrayPaths all -> 0 < pageSize ->
  List.length all < fuel * pageSize ->
  almaGetAll fuel almaGet arrayPaths pageSize = Returned all.
Proof.
  intros Hs Hp Hf. unfold almaGetAll.
  apply (almaGetAll_from_serves almaGet arrayPaths all pageSize Hs Hp fuel 0).
  lia.
Qed.

(** X20.  The edges of [almaGetAll] with the default paths and a positive
    page size: an exception of the first request is thrown on; a first
    response without an array under [funds.fund] or [fund] (a text, [null],
    an object with other fields) ends the listing with the empty list after
    that one request; a first response with fewer items than the page size
    is returned as it is. *)
Theorem almaGetAll_first_page (almaGet : nat -> nat -> option JSON)
    (pageSize fuel : nat) :
  0 < pageSize ->
  (almaGet pageSize 0 = None ->
   almaGetAll (S fuel) almaGet fund_paths pageSize = Thrown)
  /\ (forall page,
        almaGet pageSize 0 = Some page ->
        find_chunk fund_paths page = None ->
        almaGetAll (S fuel) almaGet fund_paths pageSize = Returned [])
  /\ (forall fields items,
        almaGet pageSize 0 = Some (JObj fields) ->
        field "funds" fields = None ->
        field "fund" fields = Some (JArr items) ->
        List.length items < pageSize ->
        almaGetAll (S fuel) almaGet fund_paths pageSize = Returned items).
Proof.
  intros Hp. unfold almaGetAll. cbn [almaGetAll_from].
  split; [intros ->; reflexivity|]. split.
  - intros page -> ->. cbn [List.length app].
    destruct (Nat.ltb_spec 0 pageSize); [reflexivity | lia].
  - intros fields items -> Hfunds Hfund Hlt.
    cbn [fund_paths find_chunk follow fold_left get].
    rewrite Hfunds, Hfund. cbn [get app].
    destruct (Nat.ltb_spec (List.length items) pageSize); [reflexivity | lia].
Qed.

End Paging.

(** A server with 250 funds, served under [fund]. *)
Definition example_funds : list JSON :=
  map (fun n => JNum (Z.of_nat n)) (seq 0 250).

Definition example_server (limit offset : nat) : option JSON :=
  Some (JObj [("total_record_count", JNum 250);
              ("fund", JArr (firstn limit (skipn offset example_funds)))]).

Lemma example_server_serves : serves example_server fund_paths example_funds.
Proof.
  intros limit offset. eexists. split; [reflexivity|].
  cbn [fund_paths find_chunk follow fold_left get field String.eqb Ascii.eqb
    Bool.eqb]. reflexivity.
Qed.

(** X19 on 250 funds and pages of 100: three requests. *)
Lemma almaGetAll_collects_witness :
  (0 < 100 /\ List.length example_funds < 3 * 100)
  /\ almaGetAll 3 example_server fund_paths 100 = Returned example_funds.
Proof.
  assert (H1 : 0 < 100) by lia.
  assert (H2 : List.length example_funds < 3 * 100) by (vm_compute; lia).
  split; [split; assumption|].
  exact (almaGetAll_collects example_server fund_paths example_funds 100 3
           example_server_serves H1 H2).
Defined.

(** X20 on a server that answers with a text. *)
Lemma almaGetAll_first_page_witness :
  0 < 100
  /\ almaGetAll 1 (fun _ _ => Some (JStr "Service unavailable")) fund_paths 100
     = Returned [].
Proof.
  assert (H1 : 0 < 100) by lia.
  split; [exact H1|].
  exact (proj1 (proj2 (almaGetAll_first_page
                         (fun _ _ => Some (JStr "Service unavailable")) 100 0 H1))
           (JStr "Service unavailable") eq_refl eq_refl).
Defined.

(** ** Request URLs *)

Section Urls.

(** The pairs of a query with a given name. *)
Definition named (name : string) (q : Query) : Query :=
  filter (fun p => String.eqb (fst p) name) q.

Lemma named_app (name : string) (q r : Query) :
  named name (q ++ r) = named name q ++ named name r.
Proof. apply filter_app. Qed.

Lemma named_without (name : string) (q : Query) :
  named name (filter (fun p => negb (String.eqb (fst p) name)) q) = [].
Proof.
  induction q as [|[k v] q IH]; [reflexivity|]. cbn [filter fst].
  destruct (String.eqb k name) eqn:E; cbn [negb]; [exact IH|].
  unfold named in *. cbn [filter fst]. now rewrite E.
Qed.

Lemma named_usp_set_same (name value : string) (q : Query) :
  named name (usp_set name value q) = [(name, value)].
Proof.
  induction q as [|[k v] q IH].
  - unfold named. cbn. now rewrite String.eqb_refl.
  - cbn [usp_set]. destruct (String.eqb_spec k name) as [->|Hne].
    + unfold named at 1. cbn [filter fst]. rewrite String.eqb_refl.
      f_equal. apply named_without.
    + unfold named in *. cbn [filter fst].
      destruct (String.eqb_spec k name); [contradiction | exact IH].
Qed.

Lemma named_usp_set_other (name k value : string) (q : Query) :
  k <> name -> named name (usp_set k value q) = named name q.
Proof.
  intros Hne. induction q as [|[k' v] q IH].
  - unfold named. cbn. destruct (String.eqb_spec k name); [contradiction|reflexivity].
  - cbn [usp_set]. destruct (String.eqb_spec k' k) as [->|Hk].
    + unfold named. cbn [filter fst].
      destruct (String.eqb_spec k name); [contradiction|].
      clear IH. induction q as [|[k2 v2] q IH2]; [reflexivity|].
      cbn [filter fst]. destruct (String.eqb_spec k2 k) as [->|]; cbn [negb].
      * destruct (String.eqb_spec k name); [contradiction | exact IH2].
      * cbn [filter fst]. now rewrite IH2.
    + unfold named in *. cbn [filter fst]. now rewrite IH.
Qed.

Lemma named_appended (name k : string) (items : list string) (q : Query) :
  k <> name ->
  named name (fold_left (fun q item => usp_append k item q) items q)
  = named name q.
Proof.
  intros Hne. revert q. induction items as [|x items IH]; intros q; [reflexivity|].
  cbn [fold_left]. rewrite IH. unfold usp_append. rewrite named_app.
  unfold named at 2. cbn [filter fst].
  destruct (String.eqb_spec k name); [contradiction | apply app_nil_r].
Qed.

(** Entries of another name leave the pairs of a name alone. *)
Lemma named_merge_params (name : string) (params : list (string * ParamValue)) :
  (forall v, ~ In (name, v) params) ->
  forall q, named name (merge_params params q) = named name q.
Proof.
  induction params as [|[k v] params IH]; intros Hno q; [reflexivity|].
  assert (Hk : k <> name) by (intros ->; apply (Hno v); now left).
  assert (Hno' : forall w, ~ In (name, w) params)
    by (intros w Hin; apply (Hno w); now right).
  destruct v as [|v|items]; cbn [merge_params]; rewrite (IH Hno').
  - reflexivity.
  - now apply named_usp_set_other.
  - now apply named_appended.
Qed.

Lemma named_nil_has (name : string) (q : Query) :
  usp_has name q = false -> named name q = [].
Proof.
  unfold usp_has, named. induction q as [|[k v] q IH]; [reflexivity|].
  cbn [existsb filter fst]. destruct (String.eqb k name); [discriminate | exact IH].
Qed.

Lemma usp_has_named (name : string) (q : Query) :
  usp_has name q = negb (Nat.eqb (List.length (named name q)) 0).
Proof.
  unfold usp_has, named. induction q as [|[k v] q IH]; [reflexivity|].
  cbn [existsb filter fst]. destruct (String.eqb k name); [reflexivity | exact IH].
Qed.

Lemma merge_params_app (p1 p2 : list (string * ParamValue)) (q : Query) :
  merge_params (p1 ++ p2) q = merge_params p2 (merge_params p1 q).
Proof.
  revert q. induction p1 as [|[k v] p1 IH]; intros q; [reflexivity|].
  destruct v; cbn [app merge_params]; apply IH.
Qed.

(** X21.  Every URL [buildUrl] builds carries the API key.  When neither the
    query of the path nor [params] names [apikey], the query has exactly one
    [apikey] pair and its value is [CONFIG.ALMA_API_KEY]; an [apikey] that
    comes with the path is kept instead of the configured one. *)
Theorem buildUrl_apikey (search : Query) (key : string)
    (params : list (string * ParamValue)) :
  (forall v, ~ In ("apikey", v) params) ->
  (usp_has "apikey" search = false ->
   named "apikey" (buildUrl_query search (Some key) params) = [("apikey", key)])
  /\ (usp_has "apikey" search = true ->
      named "apikey" (buildUrl_query search (Some key) params)
      = named "apikey" search)
  /\ usp_has "apikey" (buildUrl_query search (Some key) params) = true.
Proof.
  intros Hno. unfold buildUrl_query.
  destruct (usp_has "apikey" search) eqn:E; cbn [negb].
  - split; [discriminate|]. split; [intros _; now apply named_merge_params|].
    rewrite usp_has_named, named_merge_params by exact Hno.
    now rewrite <- usp_has_named.
  - assert (H : named "apikey" (merge_params params (usp_set "apikey" key search))
                = [("apikey", key)])
      by (rewrite named_merge_params by exact Hno; apply named_usp_set_same).
    split; [intros _; exact H|]. split; [discriminate|].
    rewrite usp_has_named, H. reflexivity.
Qed.

(** X22.  A string parameter of the caller ends up in the query exactly once
    and with the caller's value, whatever the path or the entries before it
    held under that name; the pairs of every other name that earlier steps
    put there are not touched by it. *)
Theorem buildUrl_param_overrides (search : Query) (key : option string)
    (before after : list (string * ParamValue)) (k v : string) :
  (forall w, ~ In (k, w) after) ->
  named k (buildUrl_query search key (before ++ (k, PString v) :: after))
  = [(k, v)].
Proof.
  intros Hno. unfold buildUrl_query.
  rewrite merge_params_app. cbn [merge_params].
  rewrite named_merge_params by exact Hno. apply named_usp_set_same.
Qed.

End Urls.

(** X21 on the request for a page of funds. *)
Lemma buildUrl_apikey_witness :
  (forall v, ~ In ("apikey", v) [("limit", PString "100"); ("offset", PString "0")])
  /\ named "apikey"
       (buildUrl_query [] (Some "sk-test-12345")
          [("limit", PString "100"); ("offset", PString "0")])
     = [("apikey", "sk-test-12345")].
Proof.
  assert (Hno : forall v,
    ~ In ("apikey", v) [("limit", PString "100"); ("offset", PString "0")])
    by (intros v [H|[H|[]]]; discriminate H).
  split; [exact Hno|].
  exact (proj1 (buildUrl_apikey [] "sk-test-12345"
                  [("limit", PString "100"); ("offset", PString "0")] Hno)
           eq_refl).
Defined.

(** X22 on a path that comes with its own [limit]. *)
Lemma buildUrl_param_overrides_witness :
  (forall w, ~ In ("limit", w) [("offset", PString "0")])
  /\ named "limit"
       (buildUrl_query [("limit", "10"); ("limit", "20")] (Some "k")
          ([] ++ ("limit", PString "100") :: [("offset", PString "0")]))
     = [("limit", "100")].
Proof.
  assert (Hno : forall w, ~ In ("limit", w) [("offset", PString "0")])
    by (intros w [H|[]]; discriminate H).
  split; [exact Hno|].
  exact (buildUrl_param_overrides [("limit", "10"); ("limit", "20")] (Some "k")
           [] [("offset", PString "0")] "limit" "100" Hno).
Defined.

(** ** The routing of a new order line *)

Section Routing.

(** The profile tried first and the one tried after a multi-profile error. *)
Definition preferred_profile (newOrderProfile : option string) : string :=
  trim (if truthy_string newOrderProfile
        then String_or_empty newOrderProfile
        else "ORDER_IT_API_PROFILE").

Definition alternate_profile (newOrderProfile : option string) : string :=
  if String.eqb (preferred_profile newOrderProfile) "GOBI"
  then "ORDER_IT_API_PROFILE" else "GOBI".

(** The name a route is reported under. *)
Definition route_name (route : option string) : string :=
  match route with
  | Some p => p
  | None => "DIRECT"
  end.

Lemma alternate_differs (newOrderProfile : option string) :
  alternate_profile newOrderProfile <> preferred_profile newOrderProfile.
Proof.
  unfold alternate_profile.
  destruct (String.eqb_spec (preferred_profile newOrderProfile) "GOBI") as [E|E].
  - rewrite E. discriminate.
  - congruence.
Qed.

(** X23.  Without a key in the session the handler posts nothing.  With one,
    an electronic line is posted once and directly, never through a profile;
    any other line goes to the preferred profile first and is posted at most
    once more, to the alternate profile or directly.  The alternate profile
    is never the preferred one, so no route is posted to twice. *)
Theorem order_routes (hasKey : bool) (polType : string)
    (newOrderProfile : option string)
    (almaPost : option string -> PostError + JSON) :
  let run := CREATE_PO_LINE hasKey polType newOrderProfile almaPost in
  let preferred := preferred_profile newOrderProfile in
  let alternate := alternate_profile newOrderProfile in
  (if hasKey then
     if isElectronic polType then snd run = [None]
     else snd run = [Some preferred]
          \/ snd run = [Some preferred; Some alternate]
          \/ snd run = [Some preferred; None]
   else run = (po_no_key, []))
  /\ NoDup (snd run).
Proof.
  cbv zeta.
  pose proof (alternate_differs newOrderProfile) as Hd.
  unfold CREATE_PO_LINE.
  fold (preferred_profile newOrderProfile).
  fold (alternate_profile newOrderProfile).
  set (p := preferred_profile newOrderProfile) in *.
  set (a := alternate_profile newOrderProfile) in *.
  assert (N1 : forall r : option string, NoDup [r])
    by (intros r; constructor; [intros [] | constructor]).
  assert (N2 : NoDup [Some p; Some a]).
  { constructor; [|apply N1]. intros [H|[]]. apply Hd. congruence. }
  assert (N3 : NoDup [Some p; @None string]).
  { constructor; [|apply N1]. intros [H|[]]. discriminate H. }
  destruct hasKey; cbn [negb]; [|split; [reflexivity | constructor]].
  destruct (isElectronic polType).
  - destruct (almaPost None); cbn [snd]; split; auto.
  - destruct (almaPost (Some p)) as [e1|r1]; cbn [snd]; [|split; auto].
    match goal with
    | |- context [if ?b then _ else _] => destruct b
    end.
    + destruct (almaPost (Some a)); cbn [snd]; split; auto.
    + match goal with
      | |- context [if ?b then _ else _] => destruct b
      end.
      * destruct (almaPost None); cbn [snd]; split; auto.
      * cbn [snd]; split; auto.
Qed.

(** X24.  The response reports the last post: a success carries what that
    post returned, the line number read from it and the name of the route it
    went to; a failure carries the text and the status of the error that post
    threw; and whenever a second post was made, the first one had thrown. *)
Theorem order_reply_sound (polType : string)
    (newOrderProfile : option string)
    (almaPost : option string -> PostError + JSON) :
  let run := CREATE_PO_LINE true polType newOrderProfile almaPost in
  exists route,
    List.last (snd run) None = route
    /\ In route (snd run)
    /\ match fst run with
       | po_created n raw used =>
           almaPost route = inr raw /\ n = poLineNumber raw
           /\ used = route_name route
       | po_failed error status tried =>
           exists e, almaPost route = inl e
                     /\ error = error_text e "Unknown error"
                     /\ status = error_status e
                     /\ match tried with
                        | Some names => map Some names = snd run
                        | None => route = None
                        end
       | po_no_key => False
       end
    /\ (forall first, List.length (snd run) = 2 ->
          hd_error (snd run) = Some first ->
          exists e1, almaPost first = inl e1).
Proof.
  cbv zeta. unfold CREATE_PO_LINE. cbn [negb].
  fold (preferred_profile newOrderProfile).
  fold (alternate_profile newOrderProfile).
  set (p := preferred_profile newOrderProfile).
  set (a := alternate_profile newOrderProfile).
  destruct (isElectronic polType).
  - destruct (almaPost None) as [e|r] eqn:E; exists None; cbn;
      (split; [reflexivity|]); (split; [now left|]); split;
      try (intros ? [=]); eauto 8.
  - destruct (almaPost (Some p)) as [e1|r1] eqn:E1.
    + match goal with
      | |- context [if ?b then _ else _] => destruct b
      end.
      * destruct (almaPost (Some a)) as [e2|r2] eqn:E2; exists (Some a); cbn;
          (split; [reflexivity|]); (split; [now right; left|]); split;
          try (intros first _ [= <-]); eauto 8.
      * match goal with
        | |- context [if ?b then _ else _] => destruct b
        end.
        -- destruct (almaPost None) as [e|r] eqn:E; exists None; cbn;
             (split; [reflexivity|]); (split; [now right; left|]); split;
             try (intros first _ [= <-]); eauto 8.
        -- exists (Some p); cbn.
           (split; [reflexivity|]); (split; [now left|]); split;
             try (intros ? [=]). exists e1. repeat split; auto.
    + exists (Some p); cbn;
        (split; [reflexivity|]); (split; [now left|]); split;
        try (intros ? [=]); eauto 8.
Qed.

End Routing.
